(** * LucidReview clinical NLP service: [docker/ctakes/app.py]

    A shallow embedding of the post-processing layer of the service
    (assertion and temporality detection, lab-value extraction, code
    mapping, de-duplication and the [/analyze] handler) together with the
    properties stated about it.

    Modelling conventions.
    - A Python [str] is a [string]; a character is a code point below 256,
      which covers every literal of the source.  [lower] is Python's
      [str.lower] on that range.
    - Python integers are [Z]; slicing follows Python's rules for negative
      and out-of-range indices.
    - The medspaCy pipeline [nlp] is an external collaborator: it is a
      parameter returning the entity spans of the document.
    - A Python exception is the [Raised] outcome of [outcome]. *)

From Stdlib Require Import Ascii String ZArith QArith Lia.
From stdpp Require Import base option list strings gmap sorting.

Local Open Scope Z_scope.

(** ** Python strings *)

Module PyStr.

(** [len(s)] *)
Definition len (s : string) : Z := Z.of_nat (String.length s).

(** An index of a slice, clamped as Python does: a negative index counts
    from the end, and everything is cut to [0, len]. *)
Definition clamp (n i : Z) : Z :=
  if i <? 0 then Z.max 0 (i + n) else Z.min i n.

(** [s[a:b]] *)
Definition slice (s : string) (a b : Z) : string :=
  let a' := clamp (len s) a in
  let b' := clamp (len s) b in
  String.substring (Z.to_nat a') (Z.to_nat (b' - a')) s.

(** [c.lower()] for a code point below 256: the ASCII capitals and the
    Latin-1 capitals (all of 0xC0..0xDE but the multiplication sign 0xD7)
    move up by 32. *)
Definition lower_char (c : ascii) : ascii :=
  let n := N_of_ascii c in
  if ((65 <=? n) && (n <=? 90))%N
     || ((192 <=? n) && (n <=? 222) && negb (n =? 215))%N
  then ascii_of_N (n + 32) else c.

(** [s.lower()] *)
Fixpoint lower (s : string) : string :=
  match s with
  | EmptyString => EmptyString
  | String c s' => String (lower_char c) (lower s')
  end.

(** [sub in s]: [sub] starts at some position of [s]. *)
Fixpoint contains (sub s : string) : bool :=
  String.prefix sub s ||
  match s with
  | EmptyString => false
  | String _ s' => contains sub s'
  end.

(** [occurs sub s]: [sub] is a literal substring of [s]. *)
Definition occurs (sub s : string) : Prop :=
  ∃ pre post, s = pre +:+ sub +:+ post.

(** [occurs_ci sub s]: some substring of [s] equals [sub] once both are
    lower-cased, that is, [sub] occurs in [s] up to case. *)
Definition occurs_ci (sub s : string) : Prop :=
  ∃ pre mid post, s = pre +:+ mid +:+ post ∧ lower mid = lower sub.

End PyStr.

(** ** Lexical context detection *)

Inductive assertion := affirmed | negated.
Inductive temporality := historical | current | hypothetical.

(** Negation cues *)
Definition NEGATION_CUES : list string :=
  [ "no "; "not "; "denies "; "denied "; "without "; "negative "; "absent ";
    "no evidence of"; "ruled out"; "rules out"; "unlikely" ].

Definition history_cues : list string :=
  [ "history of"; "h/o"; "previous"; "prior"; "past"; "former" ].

Definition hypothetical_cues : list string :=
  [ "if "; "should "; "consider "; "possible "; "suspect" ].

(** The loop [for cue in cues: if cue in s: return ...]: [true] when the
    loop returns from its body, [false] when it runs to its end. *)
Fixpoint any_cue_in (cues : list string) (s : string) : bool :=
  match cues with
  | [] => false
  | cue :: rest => if PyStr.contains cue s then true else any_cue_in rest s
  end.

Definition detect_assertion (text : string) (span_start : Z)
    (entity_text : string) : assertion :=
  let window_start := Z.max 0 (span_start - 60) in
  let preceding_text := PyStr.lower (PyStr.slice text window_start span_start) in
  if any_cue_in NEGATION_CUES preceding_text then negated else affirmed.

Definition detect_temporality (text : string) (span_start : Z) : temporality :=
  let window_start := Z.max 0 (span_start - 80) in
  let preceding := PyStr.lower (PyStr.slice text window_start span_start) in
  if any_cue_in history_cues preceding then historical
  else if any_cue_in hypothetical_cues preceding then hypothetical
  else current.


(** ** Regular expressions

    The fragment of Python's [re] syntax that [LAB_PATTERNS] uses, matched
    as [re] does: by backtracking, alternatives tried from left to right,
    quantifiers greedy.  Every quantified item of the source is a character
    class, so repetition is over a class. *)

Module Re.

Inductive regex :=
  | Eps
  | Chr (p : ascii → bool)
  | Cat (r1 r2 : regex)
  | Alt (r1 r2 : regex)
  | Rep (p : ascii → bool) (lo : nat) (hi : option nat).

(** [\d] on code points below 256 *)
Definition digit (c : ascii) : bool :=
  let n := N_of_ascii c in ((48 <=? n) && (n <=? 57))%N.

(** [\s] on code points below 256: tab, line feed, vertical tab, form feed,
    carriage return, the four separators 0x1C..0x1F, space, 0x85 and 0xA0 *)
Definition space (c : ascii) : bool :=
  let n := N_of_ascii c in
  (((9 <=? n) && (n <=? 13)) || ((28 <=? n) && (n <=? 32))
   || (n =? 133) || (n =? 160))%N.

Definition only (a : ascii) (c : ascii) : bool := Ascii.eqb a c.

(** [[ab]] *)
Definition either (a b : ascii) (c : ascii) : bool := Ascii.eqb a c || Ascii.eqb b c.

(** [[:\s]] *)
Definition colon_space (c : ascii) : bool := Ascii.eqb ":" c || space c.

(** A literal string *)
Fixpoint lit (s : string) : regex :=
  match s with
  | EmptyString => Eps
  | String c s' => Cat (Chr (only c)) (lit s')
  end.

(** [r?], [p*], [p{lo,hi}], [p{n}] *)
Definition opt (r : regex) : regex := Alt r Eps.
Definition star (p : ascii → bool) : regex := Rep p 0 None.
Definition rep (p : ascii → bool) (lo hi : nat) : regex := Rep p lo (Some hi).
Definition times (p : ascii → bool) (n : nat) : regex := Rep p n (Some n).

Definition more (hi : option nat) : bool :=
  match hi with Some O => false | _ => true end.

Section Exec.
Context {A : Type}.

(** Greedy repetition of a class: take one more character when allowed
    and go on; when that fails, stop here if [lo] is reached. *)
Fixpoint exec_rep (p : ascii → bool) (lo : nat) (hi : option nat)
    (s : string) (k : string → option A) : option A :=
  let stop := match lo with O => k s | S _ => None end in
  match s with
  | String c s' =>
      if p c && more hi then
        match exec_rep p (Nat.pred lo) (Nat.pred <$> hi) s' k with
        | Some x => Some x
        | None => stop
        end
      else stop
  | EmptyString => stop
  end.

(** [exec r s k]: match [r] at the start of [s] and hand the rest of
    the string to [k]; a [None] from [k] makes the matcher backtrack. *)
Fixpoint exec (r : regex) (s : string) (k : string → option A) : option A :=
  match r with
  | Eps => k s
  | Chr p =>
      match s with
      | String c s' => if p c then k s' else None
      | EmptyString => None
      end
  | Cat r1 r2 => exec r1 s (λ s1, exec r2 s1 k)
  | Alt r1 r2 =>
      match exec r1 s k with
      | Some x => Some x
      | None => exec r2 s k
      end
  | Rep p lo hi => exec_rep p lo hi s k
  end.
End Exec.

(** A pattern with one capturing group: [pre(grp)post]. *)
Record pattern := Pattern { pre : regex; grp : regex; post : regex }.

(** A match object: [m.start()], [m.end()], [m.group(0)], [m.group(1)]. *)
Record rmatch := Match {
  m_start : nat; m_end : nat; group0 : string; group1 : string }.

Definition consumed (s s' : string) : nat :=
  (String.length s - String.length s')%nat.

(** [pattern.match] at position [pos], where [s] is the text from [pos] on. *)
Definition match_at (pt : pattern) (s : string) (pos : nat) : option rmatch :=
  exec (pre pt) s (λ s1,
    exec (grp pt) s1 (λ s2,
      exec (post pt) s2 (λ s3,
        Some (Match pos (pos + consumed s s3)
                (String.substring 0 (consumed s s3) s)
                (String.substring 0 (consumed s1 s2) s1))))).

(** The scan of [re.finditer]: the leftmost match from each position on,
    the next search starting where the last match ended.  [skip] counts the
    characters of the last match still to step over; after an empty match
    the scan moves on by one character. *)
Fixpoint scan (pt : pattern) (s : string) (pos : nat) (skip : nat) : list rmatch :=
  match skip with
  | S n =>
      match s with
      | EmptyString => []
      | String _ s' => scan pt s' (S pos) n
      end
  | O =>
      match match_at pt s pos with
      | Some m =>
          m :: match s with
               | EmptyString => []
               | String _ s' => scan pt s' (S pos) (Nat.pred (m_end m - pos))
               end
      | None =>
          match s with
          | EmptyString => []
          | String _ s' => scan pt s' (S pos) 0
          end
      end
  end.

(** [re.finditer(pattern, text)] *)
Definition finditer (pt : pattern) (text : string) : list rmatch :=
  scan pt text 0 0.

(** Every character of [w] is in the class [p]. *)
Fixpoint all (p : ascii → bool) (w : string) : bool :=
  match w with
  | EmptyString => true
  | String c w' => p c && all p w'
  end.

(** The words a regular expression denotes. *)
Fixpoint lang (r : regex) (w : string) : Prop :=
  match r with
  | Eps => w = ""
  | Chr p => ∃ c, w = String c "" ∧ p c = true
  | Cat r1 r2 => ∃ w1 w2, w = w1 +:+ w2 ∧ lang r1 w1 ∧ lang r2 w2
  | Alt r1 r2 => lang r1 w ∨ lang r2 w
  | Rep p lo hi =>
      all p w = true ∧ (lo ≤ String.length w)%nat
      ∧ match hi with Some h => (String.length w ≤ h)%nat | None => True end
  end.

(** A lower bound on the length of the words of [r]. *)
Fixpoint min_len (r : regex) : nat :=
  match r with
  | Eps => 0
  | Chr _ => 1
  | Cat r1 r2 => min_len r1 + min_len r2
  | Alt r1 r2 => min_len r1 `min` min_len r2
  | Rep _ lo _ => lo
  end.

(** What a match of [pre(grp)post] at position [pos] is made of, [s] being
    the text from [pos] on: a word of each part, one after the other. *)
Definition splits (pt : pattern) (s : string) (pos : nat) (m : rmatch) : Prop :=
  ∃ w1 w2 w3 s',
    s = w1 +:+ w2 +:+ w3 +:+ s'
    ∧ lang (pre pt) w1 ∧ lang (grp pt) w2 ∧ lang (post pt) w3
    ∧ m = Match pos (pos + String.length (w1 +:+ w2 +:+ w3))%nat
            (w1 +:+ w2 +:+ w3) w2.

End Re.

Import Re.

(** ** Lab value patterns: (regex, LOINC code, unit, display name) *)

Record lab_rule := LabRule {
  lab_pattern : pattern; loinc_code : string; lab_unit : string; display : string }.

Definition LAB_PATTERNS : list lab_rule :=
  [ (* (?:O2\s*[Ss]at|SpO2|SaO2)[:\s]*(\d{1,3})\s*% *)
    LabRule (Pattern
      (Cat (Alt (Cat (lit "O2") (Cat (star space) (Cat (Chr (either "S" "s")) (lit "at"))))
                (Alt (lit "SpO2") (lit "SaO2")))
           (star colon_space))
      (rep digit 1 3)
      (Cat (star space) (lit "%")))
      "59408-5" "%" "SpO2";
    (* pO2[:\s]*(\d{1,3})\s*(?:mmHg)? *)
    LabRule (Pattern
      (Cat (lit "pO2") (star colon_space))
      (rep digit 1 3)
      (Cat (star space) (opt (lit "mmHg"))))
      "2703-7" "mmHg" "Arterial pO2";
    (* pCO2[:\s]*(\d{1,3})\s*(?:mmHg)? *)
    LabRule (Pattern
      (Cat (lit "pCO2") (star colon_space))
      (rep digit 1 3)
      (Cat (star space) (opt (lit "mmHg"))))
      "2019-8" "mmHg" "Arterial pCO2";
    (* pH[:\s]*(\d\.\d{1,2}) *)
    LabRule (Pattern
      (Cat (lit "pH") (star colon_space))
      (Cat (Chr digit) (Cat (lit ".") (rep digit 1 2)))
      Eps)
      "2744-1" "[pH]" "Arterial pH";
    (* HCO3[:\s]*(\d{1,3})\s*(?:mEq/L|mmol/L)? *)
    LabRule (Pattern
      (Cat (lit "HCO3") (star colon_space))
      (rep digit 1 3)
      (Cat (star space) (opt (Alt (lit "mEq/L") (lit "mmol/L")))))
      "1959-6" "mmol/L" "Bicarbonate";
    (* (?:HR|[Hh]eart [Rr]ate)[:\s]*(\d{2,3}) *)
    LabRule (Pattern
      (Cat (Alt (lit "HR")
                (Cat (Chr (either "H" "h"))
                     (Cat (lit "eart ") (Cat (Chr (either "R" "r")) (lit "ate")))))
           (star colon_space))
      (rep digit 2 3)
      Eps)
      "8867-4" "/min" "Heart rate";
    (* (?:RR|[Rr]esp(?:iratory)?\s*[Rr]ate)[:\s]*(\d{1,2}) *)
    LabRule (Pattern
      (Cat (Alt (lit "RR")
                (Cat (Chr (either "R" "r"))
                     (Cat (lit "esp")
                          (Cat (opt (lit "iratory"))
                               (Cat (star space)
                                    (Cat (Chr (either "R" "r")) (lit "ate")))))))
           (star colon_space))
      (rep digit 1 2)
      Eps)
      "9279-1" "/min" "Respiratory rate";
    (* (?:BP|[Bb]lood [Pp]ressure)[:\s]*(\d{2,3}/\d{2,3}) *)
    LabRule (Pattern
      (Cat (Alt (lit "BP")
                (Cat (Chr (either "B" "b"))
                     (Cat (lit "lood ") (Cat (Chr (either "P" "p")) (lit "ressure")))))
           (star colon_space))
      (Cat (rep digit 2 3) (Cat (lit "/") (rep digit 2 3)))
      Eps)
      "85354-9" "mmHg" "Blood pressure";
    (* [Tt]emp(?:erature)?[:\s]*(\d{2}\.\d)\s*(?:C|F)? *)
    LabRule (Pattern
      (Cat (Chr (either "T" "t"))
           (Cat (lit "emp") (Cat (opt (lit "erature")) (star colon_space))))
      (Cat (times digit 2) (Cat (lit ".") (Chr digit)))
      (Cat (star space) (opt (Alt (lit "C") (lit "F")))))
      "8310-5" "Cel" "Body temperature" ].


(** ** Python's [float(str)]

    The grammar of [float] on a string: surrounding blanks are
    stripped, single underscores between digits are dropped, then comes an
    optional sign and either [inf], [infinity], [nan] (in any case) or a
    decimal numeral with an optional exponent.  [None] is [ValueError].
    A numeral of magnitude [2^1024 - 2^970] or more, which rounds beyond
    the largest binary64, gives an infinity.  Below that the value is the
    exact rational the numeral denotes: its rounding to the nearest
    binary64 is not part of the model. *)

Module PyFloat.

Inductive pyfloat :=
  | PyNum (negative : bool) (magnitude : Q)
  | PyInf (negative : bool)
  | PyNan.

(** The characters [float] strips: tab to carriage return, space, 0x85
    and 0xA0 (the separators 0x1C..0x1F, which [\s] matches, are kept). *)
Definition blank (c : ascii) : bool :=
  let n := N_of_ascii c in
  (((9 <=? n) && (n <=? 13)) || (n =? 32) || (n =? 133) || (n =? 160))%N.

Fixpoint lstrip (s : string) : string :=
  match s with
  | String c s' => if blank c then lstrip s' else s
  | EmptyString => EmptyString
  end.

Fixpoint rstrip (s : string) : string :=
  match s with
  | EmptyString => EmptyString
  | String c s' =>
      match rstrip s' with
      | EmptyString => if blank c then EmptyString else String c EmptyString
      | r => String c r
      end
  end.

Definition strip (s : string) : string := lstrip (rstrip s).

(** Underscores may only stand between two digits; [prev] is the
    character before [s]. *)
Fixpoint drop_underscores (prev : ascii) (s : string) : option string :=
  match s with
  | EmptyString => if only "_" prev then None else Some EmptyString
  | String c s' =>
      if only "_" c then
        if digit prev then drop_underscores c s' else None
      else if only "_" prev && negb (digit c) then None
      else String c <$> drop_underscores c s'
  end.

Definition sign (s : string) : bool * string :=
  match s with
  | String "-" s' => (true, s')
  | String "+" s' => (false, s')
  | _ => (false, s)
  end.

Definition digit_value (c : ascii) : N := (N_of_ascii c - 48)%N.

(** The longest run of digits at the start of [s]: the number they denote
    after the digits already read into [acc], how many they are, and the
    rest of [s]. *)
Fixpoint digits (s : string) (acc : N) (n : nat) : N * nat * string :=
  match s with
  | String c s' =>
      if digit c then digits s' (10 * acc + digit_value c)%N (S n)
      else (acc, n, s)
  | EmptyString => (acc, n, s)
  end.

(** [[sign] digits] after the [e] of an exponent; it must reach the end. *)
Definition exponent (s : string) : option Z :=
  let '(neg, s1) := sign s in
  let '(v, n, rest) := digits s1 0%N 0%nat in
  match n, rest with
  | S _, EmptyString => Some (if neg then - Z.of_N v else Z.of_N v)
  | _, _ => None
  end.

(** An unsigned decimal numeral, as mantissa and power of ten. *)
Definition decimal (s : string) : option (N * Z) :=
  let '(ip, ni, r1) := digits s 0%N 0%nat in
  let '(m, nf, r2) :=
    match r1 with
    | String "." r => digits r ip 0%nat
    | _ => (ip, 0%nat, r1)
    end in
  match (ni + nf)%nat with
  | O => None
  | S _ =>
      match r2 with
      | EmptyString => Some (m, - Z.of_nat nf)
      | String c r3 =>
          if either "e" "E" c then
            e ← exponent r3; Some (m, e - Z.of_nat nf)
          else None
      end
  end.

(** [m * 10^e] *)
Definition scale (m : N) (e : Z) : Q :=
  if e <? 0 then Qred (Z.of_N m # Z.to_pos (10 ^ (- e)))
  else inject_Z (Z.of_N m * 10 ^ e).

(** The least magnitude that rounds to an infinity: half an ulp above the
    largest binary64. *)
Definition overflow : Z := 2 ^ 1024 - 2 ^ 970.

Definition finite_or_inf (neg : bool) (q : Q) : pyfloat :=
  if Qle_bool (inject_Z overflow) q then PyInf neg else PyNum neg q.

Definition py_float (s : string) : option pyfloat :=
  s1 ← drop_underscores "000" (strip s);
  let '(neg, s2) := sign s1 in
  let w := PyStr.lower s2 in
  if bool_decide (w = "inf") || bool_decide (w = "infinity") then Some (PyInf neg)
  else if bool_decide (w = "nan") then Some PyNan
  else '(m, e) ← decimal s2; Some (finite_or_inf neg (scale m e)).

(** The characters of a numeral without sign and exponent. *)
Definition plain (c : ascii) : bool := digit c || only "." c.

End PyFloat.

Import PyFloat.

(** ** Data model *)

Inductive outcome (A : Type) :=
  | Returned (a : A)
  | Raised (exc : string).
Arguments Returned {A} a.
Arguments Raised {A} exc.

Definition bind {A B} (m : outcome A) (f : A → outcome B) : outcome B :=
  match m with
  | Returned a => f a
  | Raised exc => Raised exc
  end.

Inductive etype := problem | medication | sign_symptom | lab | other.

Record span := Span { start : Z; end_ : Z }.

(** The entity dictionary.  An optional field is [None] when the key is
    absent or holds Python's [None]. *)
Record entity := Entity {
  e_text : string;
  e_type : etype;
  e_code : option string;
  e_codeSystem : option string;
  e_codeDisplay : option string;
  e_assertion : assertion;
  e_temporality : temporality;
  e_spans : list span;
  e_numericValue : option pyfloat;
  e_unit : option string }.

(** An entity span of the medspaCy document: [ent.text], [ent.label_],
    [ent.start_char], [ent.end_char] and [ent._.is_negated], which is
    [None] when the pipeline does not provide the attribute. *)
Record Ent := {
  ent_text : string;
  label_ : string;
  start_char : Z;
  end_char : Z;
  is_negated : option bool }.

(** ** ICD-10 code mapping *)

Record code_info := CodeInfo { ci_code : string; ci_system : string }.

Definition icd10 : string := "http://hl7.org/fhir/sid/icd-10-cm".

Definition CODE_MAP : gmap string code_info :=
  list_to_map
    [ ("acute respiratory failure", CodeInfo "J96.00" icd10);
      ("respiratory failure", CodeInfo "J96.9" icd10);
      ("copd", CodeInfo "J44.1" icd10);
      ("copd exacerbation", CodeInfo "J44.1" icd10);
      ("chronic obstructive pulmonary disease", CodeInfo "J44.9" icd10);
      ("pneumonia", CodeInfo "J18.9" icd10);
      ("sepsis", CodeInfo "A41.9" icd10);
      ("dyspnea", CodeInfo "R06.00" icd10);
      ("shortness of breath", CodeInfo "R06.02" icd10);
      ("hypoxia", CodeInfo "R09.02" icd10);
      ("hypercapnia", CodeInfo "R06.89" icd10);
      ("chest pain", CodeInfo "R07.9" icd10);
      ("fever", CodeInfo "R50.9" icd10);
      ("cough", CodeInfo "R05.9" icd10) ].

Definition type_map : gmap string etype :=
  list_to_map
    [ ("PROBLEM", problem); ("MEDICATION", medication);
      ("SIGN_SYMPTOM", sign_symptom) ].

(** ** Lab value extraction *)

(** The body of the inner loop of [extract_lab_values]: the entity of one
    match.  [float] raising [ValueError] leaves the entity as it is. *)
Definition lab_entity (text : string) (rule : lab_rule) (m : rmatch) : entity :=
  let value_str := group1 m in
  let span_start := Z.of_nat (m_start m) in
  let span_end := Z.of_nat (m_end m) in
  let matched_text := group0 m in
  let entity :=
    {| e_text := matched_text;
       e_type := lab;
       e_code := Some (loinc_code rule);
       e_codeSystem := Some "http://loinc.org";
       e_codeDisplay := Some (display rule);
       e_assertion := detect_assertion text span_start matched_text;
       e_temporality := detect_temporality text span_start;
       e_spans := [Span span_start span_end];
       e_numericValue := None;
       e_unit := None |} in
  if negb (PyStr.contains "/" value_str) then
    match py_float value_str with
    | Some v =>
        {| e_text := e_text entity; e_type := e_type entity;
           e_code := e_code entity; e_codeSystem := e_codeSystem entity;
           e_codeDisplay := e_codeDisplay entity;
           e_assertion := e_assertion entity;
           e_temporality := e_temporality entity;
           e_spans := e_spans entity;
           e_numericValue := Some v;
           e_unit := Some (lab_unit rule) |}
    | None => entity
    end
  else entity.

Definition extract_lab_values (text : string) : list entity :=
  flat_map (λ rule, map (lab_entity text rule) (finditer (lab_pattern rule) text))
    LAB_PATTERNS.

(** ** The full pipeline *)

(** The body of the loop over [doc.ents]. *)
Definition normalize (text : string) (ent : Ent) : entity :=
  let entity_text := ent_text ent in
  let entity_label := label_ ent in
  let entity_type := default other (type_map !! entity_label) in
  let code_info := CODE_MAP !! PyStr.lower entity_text in
  let code := ci_code <$> code_info in
  let code_system := ci_system <$> code_info in
  let assertion :=
    match is_negated ent with
    | Some true => negated
    | _ => detect_assertion text (start_char ent) entity_text
    end in
  let temporality := detect_temporality text (start_char ent) in
  {| e_text := entity_text;
     e_type := entity_type;
     e_code := code;
     e_codeSystem := code_system;
     e_codeDisplay := None;
     e_assertion := assertion;
     e_temporality := temporality;
     e_spans := [Span (start_char ent) (end_char ent)];
     e_numericValue := None;
     e_unit := None |}.

Global Instance etype_eq_dec : EqDecision etype.
Proof. solve_decision. Defined.

Definition etype_code (t : etype) : nat :=
  match t with
  | problem => 0 | medication => 1 | sign_symptom => 2 | lab => 3 | other => 4
  end%nat.

Global Instance etype_countable : Countable etype.
Proof.
  refine (inj_countable' etype_code
    (λ n, match n with
          | 0 => problem | 1 => medication | 2 => sign_symptom | 3 => lab
          | _ => other
          end%nat) _).
  intros []; reflexivity.
Defined.

Definition key : Type := string * etype * Z.

(** [(e["text"].lower(), e["type"], e["spans"][0]["start"])]; an entity
    without a span raises [IndexError]. *)
Definition entity_key (e : entity) : outcome key :=
  match e_spans e with
  | sp :: _ => Returned (PyStr.lower (e_text e), e_type e, start sp)
  | [] => Raised "IndexError"
  end.

(** The de-duplication loop, with its two accumulators. *)
Fixpoint dedup_loop (entities : list entity) (seen : gset key)
    (deduped : list entity) : outcome (list entity) :=
  match entities with
  | [] => Returned deduped
  | e :: rest =>
      bind (entity_key e) (λ k,
        if decide (k ∈ seen) then dedup_loop rest seen deduped
        else dedup_loop rest ({[ k ]} ∪ seen) (deduped ++ [e]))
  end.

(** Merge of the two entity streams followed by de-duplication. *)
Definition merge (nlp_entities lab_entities : list entity) : outcome (list entity) :=
  dedup_loop (nlp_entities ++ lab_entities) ∅ [].

Definition extract_clinical_entities (nlp : string → outcome (list Ent))
    (text : string) : outcome (list entity) :=
  bind (nlp text) (λ ents,
    let entities := map (normalize text) ents in
    let lab_entities := extract_lab_values text in
    merge entities lab_entities).

(** ** The [/analyze] route *)

(** A parsed JSON value.  An object keeps its members in source order; a
    later member overrides an earlier one of the same name. *)
#[local] Unset Elimination Schemes.
Inductive json :=
  | JNull
  | JBool (b : bool)
  | JNum (q : Q)
  | JStr (s : string)
  | JArr (items : list json)
  | JObj (members : list (string * json)).
#[local] Set Elimination Schemes.

(** Python's truth value of a parsed JSON value. *)
Definition truthy (j : json) : bool :=
  match j with
  | JNull => false
  | JBool b => b
  | JNum q => negb (Qnum q =? 0)
  | JStr s => negb (bool_decide (s = ""))
  | JArr items => negb (bool_decide (items = []))
  | JObj members => negb (bool_decide (members = []))
  end.

(** [d.get(name)] on a parsed object *)
Fixpoint get (name : string) (members : list (string * json)) : option json :=
  match members with
  | [] => None
  | (k, v) :: rest =>
      match get name rest with
      | Some v' => Some v'
      | None => if bool_decide (k = name) then Some v else None
      end
  end.

Inductive response_body :=
  | ErrorBody (error : string)
  | EntitiesBody (entities : list entity).

Record response := Response { status : Z; body : response_body }.

Definition analyze (nlp : string → outcome (list Ent)) (request_json : json)
    : outcome response :=
  match request_json with
  | JObj members =>
      let text := default (JStr "") (get "text" members) in
      if negb (truthy text) then
        Returned (Response 400 (ErrorBody "Missing 'text' field"))
      else
        match text with
        | JStr s =>
            bind (extract_clinical_entities nlp s) (λ entities,
              Returned (Response 200 (EntitiesBody entities)))
        | _ => Raised "ValueError"
        end
  | _ => Raised "AttributeError"
  end.


(** ** The merge step as the specification words it *)

(** The identity of an entity: lower-cased text, type and the start of
    its first span. *)
Definition triple (e : entity) : string * etype * option Z :=
  (PyStr.lower (e_text e), e_type e, start <$> head (e_spans e)).

(** Of the entities [l] that follow the entities [earlier], those that are
    the first of their triple: an entity is kept exactly when no entity
    before it has the same triple. *)
Fixpoint first_occurrences (earlier l : list entity) : list entity :=
  match l with
  | [] => []
  | e :: rest =>
      (if decide (triple e ∈ triple <$> earlier) then [] else [e])
      ++ first_occurrences (earlier ++ [e]) rest
  end.

(** ** Shapes of captured values *)

(** A non-empty string of digits. *)
Definition digit_string (w : string) : Prop := all digit w = true ∧ w ≠ "".

(** Digits, digits with one point, or a compound [digits/digits]. *)
Inductive group_shape (w : string) : Prop :=
  | shape_digits : digit_string w → group_shape w
  | shape_point a b :
      w = a +:+ "." +:+ b → digit_string a → digit_string b → group_shape w
  | shape_compound a b :
      w = a +:+ "/" +:+ b → digit_string a → digit_string b → group_shape w.

(** ** The scenario of the specification *)

Definition scenario_text : string :=
  "Patient denies chest pain. HR: 110. History of COPD.".

(** The spans of the two problems in the scenario, as the pipeline reports
    them, with whatever negation attribute it provides. *)
Definition chest_pain_ent (flag : option bool) : Ent :=
  {| ent_text := "chest pain"; label_ := "PROBLEM";
     start_char := 15; end_char := 25; is_negated := flag |}.

Definition copd_ent (flag : option bool) : Ent :=
  {| ent_text := "COPD"; label_ := "PROBLEM";
     start_char := 47; end_char := 51; is_negated := flag |}.

(** A pipeline that finds the two problems and provides no attribute. *)
Definition scenario_nlp (text : string) : outcome (list Ent) :=
  Returned [chest_pain_ent None; copd_ent None].

(** A pipeline whose one span runs backwards. *)
Definition backwards_nlp (text : string) : outcome (list Ent) :=
  Returned [ {| ent_text := "x"; label_ := "PROBLEM";
                start_char := 5; end_char := 3; is_negated := None |} ].

(** A pipeline that finds nothing, and one that always fails. *)
Definition silent_nlp (text : string) : outcome (list Ent) := Returned [].
Definition failing_nlp (text : string) : outcome (list Ent) := Raised "RuntimeError".

(** An entity span the pipeline marks as not negated, after a negation cue. *)
Definition fever_ent : Ent :=
  {| ent_text := "fever"; label_ := "PROBLEM";
     start_char := 3; end_char := 8; is_negated := Some false |}.

(** Two NLP entities with one triple (the second in capitals and without
    a code) and a lab entity. *)
Definition sample_nlp_entities : list entity :=
  [ normalize "fever, FEVER" {| ent_text := "fever"; label_ := "PROBLEM";
      start_char := 0; end_char := 5; is_negated := None |};
    normalize "fever, FEVER" {| ent_text := "FEVER"; label_ := "PROBLEM";
      start_char := 0; end_char := 5; is_negated := Some true |} ].

Definition sample_lab_entities : list entity := extract_lab_values "HR: 110".

(** The heart-rate entity of the scenario, as the code produces it. *)
Definition heart_rate_entity : entity :=
  {| e_text := "HR: 110"; e_type := lab;
     e_code := Some "8867-4"; e_codeSystem := Some "http://loinc.org";
     e_codeDisplay := Some "Heart rate";
     e_assertion := negated; e_temporality := current;
     e_spans := [Span 27 34];
     e_numericValue := Some (PyNum false 110); e_unit := Some "/min" |}.

(** ** Words of a pattern and order of entities *)

(** The words a pattern [pre(grp)post] matches as a whole. *)
Definition word_of (pt : pattern) (w : string) : Prop :=
  ∃ w1 w2 w3,
    w = w1 +:+ w2 +:+ w3
    ∧ lang (pre pt) w1 ∧ lang (grp pt) w2 ∧ lang (post pt) w3.

(** [e1] lies before [e2] in the document, without overlap. *)
Definition before (e1 e2 : entity) : Prop :=
  ∀ s1 s2, s1 ∈ e_spans e1 → s2 ∈ e_spans e2 →
    start s1 < start s2 ∧ end_ s1 ≤ start s2.

(** A numeral [digits] or [digits.digits]. *)
Definition numeral (w : string) : Prop :=
  digit_string w
  ∨ ∃ a b, w = a +:+ "." +:+ b ∧ digit_string a ∧ digit_string b.

(** The rule for the heart rate, as it stands in [LAB_PATTERNS]. *)
Definition heart_rate_rule : lab_rule :=
  LabRule (Pattern
    (Cat (Alt (lit "HR")
              (Cat (Chr (either "H" "h"))
                   (Cat (lit "eart ") (Cat (Chr (either "R" "r")) (lit "ate")))))
         (star colon_space))
    (rep digit 2 3)
    Eps)
    "8867-4" "/min" "Heart rate".

(** ** The first characters of a pattern *)

(** The expression without words. *)
Definition void : regex := Chr (λ _, false).

(** Every code point below 256. *)
Definition all_ascii : list ascii := ascii_of_nat <$> seq 0 256.

(** The characters a word of [r] may start with. *)
Fixpoint firsts (r : regex) : list ascii :=
  match r with
  | Eps => []
  | Chr p => filter (λ c, p c = true) all_ascii
  | Cat r1 r2 =>
      firsts r1 ++ (if (min_len r1 =? 0)%nat then firsts r2 else [])
  | Alt r1 r2 => firsts r1 ++ firsts r2
  | Rep p lo hi => if more hi then filter (λ c, p c = true) all_ascii else []
  end.

(** What may follow the character [c] at the start of a word of [r]. *)
Fixpoint deriv (c : ascii) (r : regex) : regex :=
  match r with
  | Eps => void
  | Chr p => if p c then Eps else void
  | Cat r1 r2 =>
      Alt (Cat (deriv c r1) r2)
          (if (min_len r1 =? 0)%nat then deriv c r2 else void)
  | Alt r1 r2 => Alt (deriv c r1) (deriv c r2)
  | Rep p lo hi =>
      if p c && more hi then Rep p (Nat.pred lo) (Nat.pred <$> hi) else void
  end.

(** The pairs of characters a word of [r] may start with. *)
Definition heads (r : regex) : list (ascii * ascii) :=
  c1 ← firsts r; c2 ← firsts (deriv c1 r); [(c1, c2)].

(** The codes of the rules whose pattern may start with the pair [h]. *)
Definition head_codes (h : ascii * ascii) : list string :=
  loinc_code <$>
    filter (λ rule, h ∈ heads (pre (lab_pattern rule))) LAB_PATTERNS.

(** The start of the first span of an entity. *)
Definition first_start (e : entity) : option Z := start <$> head (e_spans e).

(** An entity without a span, which no producer of the service builds. *)
Definition spanless_entity : entity :=
  {| e_text := "fever"; e_type := problem; e_code := None; e_codeSystem := None;
     e_codeDisplay := None; e_assertion := affirmed; e_temporality := current;
     e_spans := []; e_numericValue := None; e_unit := None |}.

(** * Properties *)

(** ** Strings *)

Section StringFacts.
Import PyStr.

Lemma app_cons c a b : String c a +:+ b = String c (a +:+ b).
Proof. reflexivity. Qed.

Lemma app_empty_r s : s +:+ "" = s.
Proof. induction s as [|c s IH]; [done|]. by rewrite app_cons, IH. Qed.

Lemma app_assoc' a b c : (a +:+ b) +:+ c = a +:+ b +:+ c.
Proof. induction a as [|x a IH]; [done|]. by rewrite !app_cons, IH. Qed.

Lemma length_app' a b :
  String.length (a +:+ b) = (String.length a + String.length b)%nat.
Proof. induction a as [|x a IH]; [done|]. rewrite app_cons. simpl. by rewrite IH. Qed.

Lemma prefix_iff a b : String.prefix a b = true ↔ ∃ r, b = a +:+ r.
Proof.
  revert b. induction a as [|x a IH]; intros b.
  - split; [intros _; by exists b | intros _; by destruct b].
  - destruct b as [|y b]; simpl.
    + split; [done | intros [r Hr]; discriminate Hr].
    + destruct (ascii_dec x y) as [->|Hxy].
      * rewrite IH. split; intros [r Hr]; exists r.
        -- by rewrite app_cons, <- Hr.
        -- rewrite app_cons in Hr. by injection Hr.
      * split; [done | intros [r Hr]]. rewrite app_cons in Hr.
        injection Hr as Hx _. by destruct Hxy.
Qed.

Lemma contains_occurs sub s : contains sub s = true ↔ occurs sub s.
Proof.
  unfold occurs. induction s as [|c s IH].
  - cbn [contains]. rewrite orb_false_r, prefix_iff. split.
    + intros [r Hr]. by exists "", r.
    + intros [[|x pre] [post H]]; [by exists post | discriminate H].
  - cbn [contains]. rewrite orb_true_iff, prefix_iff, IH. split.
    + intros [[r Hr] | (pre & post & H)].
      * by exists "", r.
      * exists (String c pre), post. by rewrite app_cons, <- H.
    + intros ([|x pre] & post & H).
      * left. by exists post.
      * right. rewrite app_cons in H. injection H as _ H. by exists pre, post.
Qed.

Lemma lower_app a b : lower (a +:+ b) = lower a +:+ lower b.
Proof. induction a as [|x a IH]; [done|]. rewrite !app_cons. simpl. by rewrite IH, app_cons. Qed.

Lemma lower_split s a b :
  lower s = a +:+ b → ∃ a' b', s = a' +:+ b' ∧ lower a' = a ∧ lower b' = b.
Proof.
  revert s. induction a as [|x a IH]; intros s H.
  - by exists "", s.
  - destruct s as [|c s]; [discriminate H|].
    rewrite app_cons in H. simpl in H. injection H as Hc H.
    destruct (IH _ H) as (a' & b' & -> & <- & <-).
    exists (String c a'), b'. rewrite app_cons. simpl. by rewrite Hc.
Qed.

(** A cue occurs in the lower-cased text exactly when it occurs in the
    text up to case. *)
Lemma occurs_lower sub s : occurs (lower sub) (lower s) ↔ occurs_ci sub s.
Proof.
  unfold occurs, occurs_ci. split.
  - intros (pre & post & H).
    apply lower_split in H as (pre' & r & -> & _ & H).
    apply lower_split in H as (mid & post' & -> & Hm & _).
    by exists pre', mid, post'.
  - intros (pre & mid & post & -> & Hm).
    exists (lower pre), (lower post). by rewrite !lower_app, Hm.
Qed.

Lemma any_cue_in_iff cues s :
  any_cue_in cues s = true ↔ ∃ cue, cue ∈ cues ∧ contains cue s = true.
Proof.
  induction cues as [|c cues IH]; simpl.
  - split; [done | intros (cue & H & _); by apply elem_of_nil in H].
  - destruct (contains c s) eqn:Hc.
    + split; [intros _ | done]. exists c. split; [left | done].
    + rewrite IH. split; intros (cue & Hin & H).
      * exists cue. split; [by right | done].
      * apply elem_of_cons in Hin as [-> | Hin]; [congruence | by exists cue].
Qed.

(** The cue loop over lower-case cues and a lower-cased window. *)
Lemma any_cue_in_lower cues w :
  Forall (λ cue, lower cue = cue) cues →
  any_cue_in cues (lower w) = true ↔ ∃ cue, cue ∈ cues ∧ occurs_ci cue w.
Proof.
  intros Hl. rewrite any_cue_in_iff. rewrite Forall_forall in Hl.
  split; intros (cue & Hin & H); exists cue; (split; [done|]).
  - apply occurs_lower. rewrite (Hl _ Hin). by apply contains_occurs.
  - apply contains_occurs. rewrite <- (Hl _ Hin). by apply occurs_lower.
Qed.
End StringFacts.

Lemma NEGATION_CUES_lower : Forall (λ cue, PyStr.lower cue = cue) NEGATION_CUES.
Proof. repeat constructor. Qed.

Lemma history_cues_lower : Forall (λ cue, PyStr.lower cue = cue) history_cues.
Proof. repeat constructor. Qed.

Lemma hypothetical_cues_lower : Forall (λ cue, PyStr.lower cue = cue) hypothetical_cues.
Proof. repeat constructor. Qed.

(** ** Lexical context detection *)

(** C1: [detect_assertion] returns [negated] exactly when one of the
    negation cues occurs, up to case, in the window
    [t[max(0, o-60):o]], and [affirmed] exactly when none does. *)
Theorem detect_assertion_negated_iff (t : string) (o : Z) (e : string) :
  let w := PyStr.slice t (Z.max 0 (o - 60)) o in
  let cue_in_window := ∃ cue, cue ∈ NEGATION_CUES ∧ PyStr.occurs_ci cue w in
  (detect_assertion t o e = negated ↔ cue_in_window)
  ∧ (detect_assertion t o e = affirmed ↔ ¬ cue_in_window).
Proof.
  intros w cue_in_window. unfold detect_assertion. fold w.
  pose proof (any_cue_in_lower NEGATION_CUES w NEGATION_CUES_lower) as H.
  fold cue_in_window in H.
  destruct (any_cue_in NEGATION_CUES (PyStr.lower w)).
  - split; split; try done.
    + intros _. by apply H.
    + intros Hn. destruct Hn. by apply H.
  - split; split; try done.
    + intros Hc. apply H in Hc. discriminate Hc.
    + intros _ Hc. apply H in Hc. discriminate Hc.
Qed.

(** C2: [detect_temporality] returns [historical] exactly when a history
    cue occurs, up to case, in the window [t[max(0, o-80):o]];
    [hypothetical] exactly when no history cue but a hypothetical cue
    occurs there; [current] exactly when neither does.  So a window
    holding cues of both lists is [historical]. *)
Theorem detect_temporality_precedence (t : string) (o : Z) :
  let w := PyStr.slice t (Z.max 0 (o - 80)) o in
  let hist := ∃ cue, cue ∈ history_cues ∧ PyStr.occurs_ci cue w in
  let hypo := ∃ cue, cue ∈ hypothetical_cues ∧ PyStr.occurs_ci cue w in
  (detect_temporality t o = historical ↔ hist)
  ∧ (detect_temporality t o = hypothetical ↔ ¬ hist ∧ hypo)
  ∧ (detect_temporality t o = current ↔ ¬ hist ∧ ¬ hypo).
Proof.
  intros w hist hypo. unfold detect_temporality. fold w.
  pose proof (any_cue_in_lower history_cues w history_cues_lower) as H1.
  pose proof (any_cue_in_lower hypothetical_cues w hypothetical_cues_lower) as H2.
  fold hist in H1. fold hypo in H2.
  destruct (any_cue_in history_cues (PyStr.lower w)).
  - assert hist as Hh by by apply H1.
    split; [|split]; split; try done; intros [Hn _]; by destruct Hn.
  - assert (¬ hist) as Hh by (intros Hc; apply H1 in Hc; discriminate Hc).
    destruct (any_cue_in hypothetical_cues (PyStr.lower w)).
    + assert hypo as Hy by by apply H2.
      split; [|split]; split; try done. intros [_ Hn]. by destruct Hn.
    + assert (¬ hypo) as Hy by (intros Hc; apply H2 in Hc; discriminate Hc).
      split; [|split]; split; try done. intros [_ Hc]. by destruct Hy.
Qed.

(** C9: the result of [detect_assertion] does not depend on the entity's
    own surface text. *)
Theorem detect_assertion_ignores_entity_text (t : string) (o : Z) (e1 e2 : string) :
  detect_assertion t o e1 = detect_assertion t o e2.
Proof. reflexivity. Qed.

(** ** Merge and de-duplication *)

Section Merge.
Implicit Types (e : entity) (l earlier : list entity) (seen : gset key).

Lemma entity_key_triple e :
  e_spans e ≠ [] →
  ∃ k, entity_key e = Returned k ∧ triple e = (k.1.1, k.1.2, Some k.2).
Proof.
  unfold entity_key, triple. destruct (e_spans e) as [|sp sps]; [done|].
  intros _. by eexists.
Qed.

(** The loop computes the first occurrences of the specification: [seen]
    holds the keys of the entities gone through so far. *)
Lemma dedup_loop_first_occurrences l : ∀ earlier seen deduped,
  Forall (λ e, e_spans e ≠ []) l →
  (∀ k : key, k ∈ seen ↔ (k.1.1, k.1.2, Some k.2) ∈ triple <$> earlier) →
  dedup_loop l seen deduped
  = Returned (deduped ++ first_occurrences earlier l).
Proof.
  induction l as [|e l IH]; intros earlier seen deduped Hs Hseen.
  - simpl. by rewrite app_nil_r.
  - apply Forall_cons in Hs as [He Hs].
    destruct (entity_key_triple e He) as (k & Hk & Ht).
    cbn [dedup_loop first_occurrences]. rewrite Hk. cbn [bind].
    destruct (decide (k ∈ seen)) as [Hin | Hin].
    + rewrite decide_True by (rewrite Ht; by apply Hseen).
      apply IH; [done|]. intros k'. rewrite Hseen, fmap_app, elem_of_app.
      split; [by left|]. intros [H | H]; [done|].
      apply list_elem_of_singleton in H. rewrite Ht in H.
      destruct k as [[??]?], k' as [[??]?]. simplify_eq/=.
      by apply (Hseen (_, _, _)).
    + rewrite decide_False by (rewrite Ht; by rewrite <- Hseen).
      rewrite (IH (earlier ++ [e]) ({[k]} ∪ seen) (deduped ++ [e])); [|done|].
      * by rewrite <- (assoc_L (++)).
      * intros k'. rewrite elem_of_union, elem_of_singleton, Hseen.
        rewrite fmap_app, elem_of_app. cbn. rewrite list_elem_of_singleton, Ht.
        destruct k as [[??]?], k' as [[??]?]. cbn.
        split; intros [H | H]; [right | by left | by right | left]; congruence.
Qed.

Lemma first_occurrences_app l1 : ∀ earlier l2,
  first_occurrences earlier (l1 ++ l2)
  = first_occurrences earlier l1 ++ first_occurrences (earlier ++ l1) l2.
Proof.
  induction l1 as [|e l1 IH]; intros earlier l2.
  - by rewrite app_nil_r.
  - cbn [app first_occurrences]. rewrite IH, <- !(assoc_L (++)). done.
Qed.

Lemma first_occurrences_sublist l : ∀ earlier,
  first_occurrences earlier l `sublist_of` l.
Proof.
  induction l as [|e l IH]; intros earlier; [done|].
  cbn [first_occurrences]. case_decide; cbn [app].
  - by apply sublist_cons.
  - by apply sublist_skip.
Qed.

Lemma first_occurrences_fresh l : ∀ earlier e,
  e ∈ first_occurrences earlier l → triple e ∉ triple <$> earlier.
Proof.
  induction l as [|x l IH]; intros earlier e; [by intros ?%elem_of_nil|].
  cbn [first_occurrences]. intros [H | H]%elem_of_app.
  - case_decide; [by apply elem_of_nil in H|].
    by apply list_elem_of_singleton in H as ->.
  - apply IH in H. rewrite fmap_app, elem_of_app in H. tauto.
Qed.

Lemma first_occurrences_NoDup l : ∀ earlier,
  NoDup (triple <$> first_occurrences earlier l).
Proof.
  induction l as [|x l IH]; intros earlier; [constructor|].
  cbn [first_occurrences]. case_decide; [apply IH|].
  cbn. constructor; [|apply IH].
  intros (e & He & Hin)%list_elem_of_fmap.
  apply first_occurrences_fresh in Hin. rewrite <- He in Hin.
  apply Hin. rewrite fmap_app, elem_of_app. right. by left.
Qed.
End Merge.

(** C4: the merge goes through the NLP entities followed by the lab
    entities and returns the first occurrence of each triple (lower-cased
    text, type, start of the first span): the result is a subsequence of
    the concatenation, so the kept entities are unchanged and in order; no
    two of them share a triple; an entity that no earlier entity matches in
    all three components is kept, and one that an earlier entity matches
    is dropped. *)
Theorem merge_keeps_first_occurrences (nlp_entities lab_entities : list entity) :
  Forall (λ e, e_spans e ≠ []) (nlp_entities ++ lab_entities) →
  ∃ out,
    merge nlp_entities lab_entities = Returned out
    ∧ out = first_occurrences [] (nlp_entities ++ lab_entities)
    ∧ out `sublist_of` (nlp_entities ++ lab_entities)
    ∧ NoDup (triple <$> out)
    ∧ ∀ before e after,
        nlp_entities ++ lab_entities = before ++ e :: after →
        ∃ out1 out2,
          out1 `sublist_of` before ∧ out2 `sublist_of` after
          ∧ (triple e ∉ triple <$> before → out = out1 ++ e :: out2)
          ∧ (triple e ∈ triple <$> before → out = out1 ++ out2).
Proof.
  intros Hs. eexists. split; [|split; [reflexivity|]].
  - unfold merge. rewrite (dedup_loop_first_occurrences _ [] ∅ []); [done..|].
    intros k. split; [by intros ?%elem_of_empty | by intros ?%elem_of_nil].
  - split; [apply first_occurrences_sublist|].
    split; [apply first_occurrences_NoDup|].
    intros before e after ->.
    exists (first_occurrences [] before), (first_occurrences (before ++ [e]) after).
    split; [apply first_occurrences_sublist|].
    split; [apply first_occurrences_sublist|].
    rewrite first_occurrences_app. cbn [first_occurrences app].
    split; intros H.
    + by rewrite decide_False.
    + by rewrite decide_True.
Qed.

(** A run of the merge on two entities of one triple and a lab entity. *)
Lemma merge_keeps_first_occurrences_witness :
  Forall (λ e, e_spans e ≠ []) (sample_nlp_entities ++ sample_lab_entities)
  ∧ ∃ e1 e2 e3,
      sample_nlp_entities = [e1; e2] ∧ sample_lab_entities = [e3]
      ∧ merge sample_nlp_entities sample_lab_entities = Returned [e1; e3].
Proof.
  assert (Forall (λ e, e_spans e ≠ []) (sample_nlp_entities ++ sample_lab_entities))
    as Hs by (vm_compute; repeat constructor; discriminate).
  split; [exact Hs|].
  destruct (merge_keeps_first_occurrences sample_nlp_entities sample_lab_entities Hs)
    as (out & -> & -> & _).
  vm_compute. do 3 eexists. split; [reflexivity|]. split; reflexivity.
Defined.

(** ** The regular expression matcher *)

Section Matcher.
Implicit Types (r : regex) (s w : string).

Lemma exec_rep_sound {A} p (k : string → option A) x s : ∀ lo hi,
  exec_rep p lo hi s k = Some x →
  ∃ w s', s = w +:+ s' ∧ lang (Rep p lo hi) w ∧ k s' = Some x.
Proof.
  induction s as [|c s IH]; intros lo hi H.
  - cbn in H. destruct lo; [|done]. exists "", "". cbn. by destruct hi; auto with lia.
  - cbn [exec_rep] in H.
    assert (match lo with O => k (String c s) | S _ => None end = Some x →
            ∃ w s', String c s = w +:+ s' ∧ lang (Rep p lo hi) w ∧ k s' = Some x)
      as Hstop.
    { destruct lo; [|done]. intros Hk. exists "", (String c s).
      cbn. by destruct hi; auto with lia. }
    destruct (p c) eqn:Hp; [|by apply Hstop].
    destruct (more hi) eqn:Hm; [|by apply Hstop]. cbn [andb] in H.
    destruct (exec_rep p (Nat.pred lo) (Nat.pred <$> hi) s k) as [y|] eqn:Hrec;
      [|by apply Hstop].
    injection H as ->.
    apply IH in Hrec as (w & s' & -> & (Hall & Hlo & Hhi) & Hk).
    exists (String c w), s'. split; [done|]. split; [|done].
    cbn. rewrite Hp, Hall. split; [done|]. split; [lia|].
    destruct hi as [[|h]|]; cbn in *; [done | lia | done].
Qed.

Lemma exec_sound {A} r : ∀ (k : string → option A) x s,
  exec r s k = Some x →
  ∃ w s', s = w +:+ s' ∧ lang r w ∧ k s' = Some x.
Proof.
  induction r as [|p|r1 IH1 r2 IH2|r1 IH1 r2 IH2|p lo hi]; intros k x s H; cbn in H.
  - by exists "", s.
  - destruct s as [|c s]; [done|]. destruct (p c) eqn:Hp; [|done].
    exists (String c ""), s. cbn. eauto.
  - apply IH1 in H as (w1 & s1 & -> & H1 & H).
    apply IH2 in H as (w2 & s2 & -> & H2 & H).
    exists (w1 +:+ w2), s2. rewrite app_assoc'. cbn. eauto 10.
  - destruct (exec r1 s k) as [y|] eqn:Hr1.
    + injection H as ->. apply IH1 in Hr1 as (w & s' & -> & H1 & H).
      exists w, s'. cbn. auto.
    + apply IH2 in H as (w & s' & -> & H2 & H). exists w, s'. cbn. auto.
  - by apply exec_rep_sound.
Qed.

Lemma min_len_le r : ∀ w, lang r w → (min_len r ≤ String.length w)%nat.
Proof.
  induction r as [|p|r1 IH1 r2 IH2|r1 IH1 r2 IH2|p lo hi]; intros w H; cbn in *.
  - lia.
  - destruct H as (c & -> & _). cbn. lia.
  - destruct H as (w1 & w2 & -> & H1 & H2). rewrite length_app'.
    apply IH1 in H1. apply IH2 in H2. lia.
  - destruct H as [H | H]; [apply IH1 in H | apply IH2 in H]; lia.
  - lia.
Qed.

Lemma consumed_app w s : consumed (w +:+ s) s = String.length w.
Proof. unfold consumed. rewrite length_app'. lia. Qed.

Lemma substring_app w s : String.substring 0 (String.length w) (w +:+ s) = w.
Proof.
  induction w as [|c w IH]; [by destruct s|]. rewrite app_cons. cbn. by rewrite IH.
Qed.

Lemma match_at_sound pt s pos m : match_at pt s pos = Some m → splits pt s pos m.
Proof.
  unfold match_at. intros H.
  apply exec_sound in H as (w1 & s1 & -> & H1 & H).
  apply exec_sound in H as (w2 & s2 & -> & H2 & H).
  apply exec_sound in H as (w3 & s3 & -> & H3 & H).
  exists w1, w2, w3, s3. do 4 (split; [done|]).
  injection H as <-. rewrite (consumed_app w2).
  replace (w1 +:+ w2 +:+ w3 +:+ s3) with ((w1 +:+ w2 +:+ w3) +:+ s3)
    by by rewrite !app_assoc'.
  by rewrite consumed_app, !substring_app.
Qed.

Lemma scan_sound pt m s : ∀ pos skip,
  m ∈ scan pt s pos skip →
  ∃ a b, s = a +:+ b ∧ match_at pt b (pos + String.length a) = Some m.
Proof.
  induction s as [|c s IH]; intros pos skip H.
  - destruct skip; cbn in H; [|by apply elem_of_nil in H].
    destruct (match_at pt "" pos) as [m'|] eqn:Hm; [|by apply elem_of_nil in H].
    apply list_elem_of_singleton in H as ->. exists "", "". cbn.
    by rewrite Nat.add_0_r.
  - assert (∀ n, m ∈ scan pt s (S pos) n →
      ∃ a b, String c s = a +:+ b ∧ match_at pt b (pos + String.length a) = Some m)
      as Hrest.
    { intros n (a & b & -> & Hm)%IH. exists (String c a), b. split; [done|].
      cbn. by rewrite Nat.add_succ_r. }
    destruct skip; cbn [scan] in H; [|by eapply Hrest].
    destruct (match_at pt (String c s) pos) as [m'|] eqn:Hm; [|by eapply Hrest].
    apply elem_of_cons in H as [-> | H]; [|by eapply Hrest].
    exists "", (String c s). cbn. by rewrite Nat.add_0_r.
Qed.

(** Every match that [finditer] yields is a match of the pattern at its
    start position in the text. *)
Lemma finditer_sound pt text m :
  m ∈ finditer pt text →
  ∃ a b, text = a +:+ b ∧ m_start m = String.length a
         ∧ splits pt b (String.length a) m.
Proof.
  intros (a & b & -> & H)%scan_sound. cbn in H.
  apply match_at_sound in H. exists a, b. split; [done|]. split; [|done].
  by destruct H as (? & ? & ? & ? & _ & _ & _ & _ & ->).
Qed.
End Matcher.

(** ** [float] on decimal numerals *)

Section FloatFacts.
Implicit Types (s w a b : string) (c : ascii).

Lemma digit_inv c :
  digit c = true →
  c ∈ ["0"; "1"; "2"; "3"; "4"; "5"; "6"; "7"; "8"; "9"]%char.
Proof.
  destruct c as [[] [] [] [] [] [] [] []]; intros H;
    (discriminate H || (clear H; set_solver)).
Qed.

Lemma all_app p a b : all p (a +:+ b) = all p a && all p b.
Proof. induction a as [|c a IH]; [done|]. rewrite app_cons. cbn. by rewrite IH, andb_assoc. Qed.

Lemma all_impl (p q : ascii → bool) w :
  (∀ c, p c = true → q c = true) → all p w = true → all q w = true.
Proof.
  intros Hpq. induction w as [|c w IH]; [done|]. cbn.
  intros [Hc Hw]%andb_true_iff. by rewrite (Hpq c Hc), IH.
Qed.

Lemma plain_not_blank c : plain c = true → negb (blank c) = true.
Proof. by destruct c as [[] [] [] [] [] [] [] []]. Qed.

Lemma plain_not_underscore c : plain c = true → negb (only "_" c) = true.
Proof. by destruct c as [[] [] [] [] [] [] [] []]. Qed.

Lemma rstrip_id w : all (λ c, negb (blank c)) w = true → rstrip w = w.
Proof.
  induction w as [|c w IH]; [done|]. cbn. intros [Hc Hw]%andb_true_iff.
  rewrite (IH Hw). destruct w; [|done].
  by apply negb_true_iff in Hc as ->.
Qed.

Lemma strip_plain c w : all plain (String c w) = true → strip (String c w) = String c w.
Proof.
  intros H. unfold strip.
  rewrite rstrip_id by (revert H; apply all_impl, plain_not_blank).
  cbn in *. apply andb_true_iff in H as [Hc%plain_not_blank _].
  by apply negb_true_iff in Hc as ->.
Qed.

Lemma drop_underscores_id w : ∀ prev,
  only "_" prev = false →
  all (λ c, negb (only "_" c)) w = true →
  drop_underscores prev w = Some w.
Proof.
  induction w as [|c w IH]; intros prev Hp H; cbn [drop_underscores].
  - by rewrite Hp.
  - cbn [all] in H. apply andb_true_iff in H as [Hc%negb_true_iff Hw].
    by rewrite Hc, Hp, (IH c Hc Hw).
Qed.

Lemma sign_digit c w : digit c = true → sign (String c w) = (false, String c w).
Proof.
  intros H%digit_inv. repeat (apply elem_of_cons in H as [-> | H]; [done|]).
  by apply elem_of_nil in H.
Qed.

Lemma digit_not_special c w v :
  digit c = true → v ∈ ["inf"; "infinity"; "nan"] →
  bool_decide (PyStr.lower (String c w) = v) = false.
Proof.
  intros Hc Hv. apply bool_decide_eq_false_2. cbn [PyStr.lower]. intros H.
  assert (PyStr.lower_char c = "i"%char ∨ PyStr.lower_char c = "n"%char) as Hl.
  { repeat (apply elem_of_cons in Hv as [-> | Hv]; [injection H as -> _; auto|]).
    by apply elem_of_nil in Hv. }
  apply digit_inv in Hc.
  repeat (apply elem_of_cons in Hc as [-> | Hc];
          [vm_compute in Hl; by destruct Hl|]).
  by apply elem_of_nil in Hc.
Qed.

Lemma digits_run a : ∀ tail acc n,
  all digit a = true →
  match tail with String c _ => digit c = false | EmptyString => True end →
  ∃ v, digits (a +:+ tail) acc n = (v, (n + String.length a)%nat, tail).
Proof.
  induction a as [|c a IH]; intros tail acc n Ha Ht.
  - exists acc. rewrite Nat.add_0_r. destruct tail as [|c tail]; [done|].
    cbn. change ("" +:+ String c tail) with (String c tail). cbn. by rewrite Ht.
  - cbn in Ha. apply andb_true_iff in Ha as [Hc Ha]. rewrite app_cons. cbn.
    rewrite Hc. destruct (IH tail (10 * acc + digit_value c)%N (S n) Ha Ht) as [v Hv].
    exists v. rewrite Hv. do 2 f_equal. lia.
Qed.

Lemma decimal_numeral a tail :
  digit_string a →
  tail = "" ∨ (∃ b, tail = "." +:+ b ∧ digit_string b) →
  is_Some (decimal (a +:+ tail)).
Proof.
  intros [Ha Hne] Ht. unfold decimal.
  assert (0 < String.length a)%nat as Hlen by (destruct a; [done | cbn; lia]).
  destruct Ht as [-> | (b & -> & Hb & _)].
  - destruct (digits_run a "" 0%N 0%nat Ha I) as [v ->]. cbn.
    destruct (String.length a); [lia | done].
  - destruct (digits_run a ("." +:+ b) 0%N 0%nat Ha) as [v ->]; [done|].
    change ("." +:+ b) with (String "." b). cbn iota beta.
    destruct (digits_run b "" v 0%nat Hb I) as [m Hm].
    rewrite app_empty_r in Hm. rewrite Hm. cbn iota beta.
    destruct (0 + String.length a + (0 + String.length b))%nat eqn:E; [lia | done].
Qed.

(** [float] accepts every numeral [digits] and [digits.digits]. *)
Lemma py_float_numeral a tail :
  digit_string a →
  tail = "" ∨ (∃ b, tail = "." +:+ b ∧ digit_string b) →
  is_Some (py_float (a +:+ tail)).
Proof.
  intros Ha Ht. pose proof (decimal_numeral a tail Ha Ht) as [[m e] Hd].
  destruct Ha as [Ha Hne]. destruct a as [|c a]; [done|]. clear Hne.
  assert (all plain (String c a +:+ tail) = true) as Hp.
  { rewrite all_app. apply andb_true_iff. split.
    - revert Ha. apply all_impl. intros x Hx. unfold plain. by rewrite Hx.
    - destruct Ht as [-> | (b & -> & Hb & _)]; [done|].
      change ("." +:+ b) with (String "." b). cbn [all].
      apply andb_true_iff. split; [done|].
      revert Hb. apply all_impl. intros x Hx. unfold plain. by rewrite Hx. }
  assert (digit c = true) as Hc by (cbn in Ha; by apply andb_true_iff in Ha as []).
  rewrite app_cons in *. unfold py_float.
  rewrite strip_plain by done.
  rewrite drop_underscores_id;
    [|done | revert Hp; apply all_impl, plain_not_underscore].
  cbn [mbind option_bind]. rewrite sign_digit by done.
  rewrite !digit_not_special by first [assumption | repeat constructor].
  cbn [orb]. rewrite Hd. done.
Qed.
End FloatFacts.

(** ** Lab value extraction *)

Section LabFacts.
Implicit Types (text w : string) (rule : lab_rule) (m : rmatch) (e : entity).

Lemma lang_lit s w : lang (lit s) w → w = s.
Proof.
  revert w. induction s as [|c s IH]; intros w; cbn; [done|].
  intros (w1 & w2 & -> & (x & -> & Hx) & ->%IH).
  unfold only in Hx. by apply Ascii.eqb_eq in Hx as ->.
Qed.

Lemma lang_rep_digits lo hi w :
  lo ≠ 0%nat → lang (Rep digit lo hi) w → digit_string w.
Proof.
  intros Hlo (Hall & Hlen & _). split; [done|]. intros ->. cbn in Hlen. lia.
Qed.

Lemma lang_chr_digit w : lang (Chr digit) w → digit_string w.
Proof. intros (c & -> & Hc). split; [|done]. cbn. by rewrite Hc. Qed.

Lemma lang_digits_sep_digits r1 sep r2 w :
  (∀ a, lang r1 a → digit_string a) →
  (∀ b, lang r2 b → digit_string b) →
  lang (Cat r1 (Cat (lit sep) r2)) w →
  ∃ a b, w = a +:+ sep +:+ b ∧ digit_string a ∧ digit_string b.
Proof.
  intros H1 H2 (a & ? & -> & Ha & (? & b & -> & ->%lang_lit & Hb)).
  exists a, b. auto.
Qed.

(** The first group of every lab pattern captures digits, digits with
    one point, or a compound [digits/digits]. *)
Lemma lab_group_shape rule w :
  rule ∈ LAB_PATTERNS → lang (grp (lab_pattern rule)) w → group_shape w.
Proof.
  intros Hin H. unfold LAB_PATTERNS in Hin.
  repeat (apply elem_of_cons in Hin as [-> | Hin]);
    [..|by apply elem_of_nil in Hin]; cbn [grp lab_pattern] in H;
    try (apply shape_digits; by apply lang_rep_digits in H).
  - apply lang_digits_sep_digits in H as (a & b & -> & Ha & Hb);
      [by eapply shape_point | apply lang_chr_digit |].
    intros ?. by apply lang_rep_digits.
  - apply lang_digits_sep_digits in H as (a & b & -> & Ha & Hb);
      [by eapply shape_compound | |]; intros ?; by apply lang_rep_digits.
  - apply lang_digits_sep_digits in H as (a & b & -> & Ha & Hb);
      [by eapply shape_point | | apply lang_chr_digit].
    intros ?. by apply lang_rep_digits.
Qed.

(** No lab pattern matches the empty string. *)
Lemma lab_pattern_min_len rule :
  rule ∈ LAB_PATTERNS → (1 ≤ min_len (pre (lab_pattern rule)))%nat.
Proof.
  intros Hin. unfold LAB_PATTERNS in Hin.
  repeat (apply elem_of_cons in Hin as [-> | Hin]);
    [..|by apply elem_of_nil in Hin]; cbn; lia.
Qed.

Lemma extract_lab_values_elem text e :
  e ∈ extract_lab_values text ↔
  ∃ rule m, rule ∈ LAB_PATTERNS ∧ m ∈ finditer (lab_pattern rule) text
            ∧ e = lab_entity text rule m.
Proof.
  unfold extract_lab_values. rewrite list_elem_of_In, in_flat_map. split.
  - intros (rule & Hr & (m & <- & Hm)%in_map_iff).
    exists rule, m. by rewrite !list_elem_of_In.
  - intros (rule & m & Hr & Hm & ->). exists rule.
    rewrite <- list_elem_of_In. split; [done|].
    apply in_map, list_elem_of_In, Hm.
Qed.

Lemma lab_entity_fields text rule m :
  let e := lab_entity text rule m in
  e_text e = group0 m ∧ e_type e = lab
  ∧ e_spans e = [Span (Z.of_nat (m_start m)) (Z.of_nat (m_end m))]
  ∧ e_assertion e = detect_assertion text (Z.of_nat (m_start m)) (group0 m).
Proof.
  unfold lab_entity.
  by destruct (negb (PyStr.contains "/" (group1 m))), (py_float (group1 m)).
Qed.

Lemma lab_entity_numeric text rule m :
  let e := lab_entity text rule m in
  (PyStr.contains "/" (group1 m) = false ∧ ∃ v,
     py_float (group1 m) = Some v
     ∧ e_numericValue e = Some v ∧ e_unit e = Some (lab_unit rule))
  ∨ ((PyStr.contains "/" (group1 m) = true ∨ py_float (group1 m) = None)
     ∧ e_numericValue e = None ∧ e_unit e = None).
Proof.
  unfold lab_entity.
  destruct (PyStr.contains "/" (group1 m)); cbn [negb]; [by auto|].
  destruct (py_float (group1 m)) as [v|]; [left | by auto].
  split; [done|]. by exists v.
Qed.

Lemma compound_contains_slash a b : PyStr.contains "/" (a +:+ "/" +:+ b) = true.
Proof. apply contains_occurs. by exists a, b. Qed.

Lemma finditer_span pt text m :
  (1 ≤ min_len (pre pt))%nat → m ∈ finditer pt text →
  (m_start m < m_end m ≤ String.length text)%nat
  ∧ ∃ a b, text = a +:+ group0 m +:+ b ∧ m_start m = String.length a.
Proof.
  intros Hmin (a & b & -> & Hs & w1 & w2 & w3 & s' & -> & H1 & _ & _ & ->)%finditer_sound.
  apply min_len_le in H1. cbn. rewrite !length_app'. split; [lia|].
  exists a, s'. by rewrite !app_assoc'.
Qed.
End LabFacts.

(** C5: for every entity of [extract_lab_values], coming from a match [m]
    of a rule, the text is the matched text; [numericValue] is present
    exactly when [unit] is, and exactly when the first group holds no
    ['/'] and [float] accepts it.  Whatever the match, when [float]
    rejects the group the entity is still built, with the matched text and
    without the two fields: nothing is raised.  On ["BP: 120/80"]
    the one entity has the code 85354-9, the text ["BP: 120/80"] and
    neither field. *)
Theorem lab_numeric_fields_paired :
  (∀ text e, e ∈ extract_lab_values text →
     ∃ rule m,
       rule ∈ LAB_PATTERNS ∧ m ∈ finditer (lab_pattern rule) text
       ∧ e = lab_entity text rule m
       ∧ e_text e = group0 m
       ∧ (is_Some (e_numericValue e) ↔ is_Some (e_unit e))
       ∧ (is_Some (e_numericValue e) ↔
            ¬ PyStr.occurs "/" (group1 m) ∧ is_Some (py_float (group1 m)))
       ∧ (py_float (group1 m) = None →
            e_numericValue e = None ∧ e_unit e = None))
  ∧ (∀ text rule m,
       py_float (group1 m) = None →
       e_text (lab_entity text rule m) = group0 m
       ∧ e_numericValue (lab_entity text rule m) = None
       ∧ e_unit (lab_entity text rule m) = None)
  ∧ extract_lab_values "BP: 120/80"
    = [ {| e_text := "BP: 120/80"; e_type := lab;
           e_code := Some "85354-9"; e_codeSystem := Some "http://loinc.org";
           e_codeDisplay := Some "Blood pressure";
           e_assertion := affirmed; e_temporality := current;
           e_spans := [Span 0 10];
           e_numericValue := None; e_unit := None |} ].
Proof.
  split; [|split; [|by vm_compute]].
  2:{ intros text rule m Hf. split; [apply lab_entity_fields|].
      destruct (lab_entity_numeric text rule m)
        as [(_ & v & Hv & _) | (_ & -> & ->)]; [congruence | done]. }
  intros text e (rule & m & Hr & Hm & ->)%extract_lab_values_elem.
  exists rule, m. do 3 (split; [done|]).
  split; [apply lab_entity_fields|].
  rewrite <- contains_occurs.
  destruct (lab_entity_numeric text rule m)
    as [(Hc & v & Hv & -> & ->) | (Hc & -> & ->)].
  - rewrite Hc, Hv. split; [done|]. split; [|done].
    split; [|by eauto]. intros _. split; [done | by eauto].
  - split; [by split; intros []|]. split; [|done].
    split; [by intros []|]. intros [Hn [v Hv]]. destruct Hc; [done | congruence].
Qed.

(** C10: the first group of each match of a lab pattern is a string of
    digits, digits with one point, or [digits/digits]; so whenever it holds
    no ['/'], [float] accepts it and the entity gets both [numericValue]
    and [unit]: the branch for a failed conversion is never taken. *)
Theorem lab_float_never_fails (text : string) (e : entity) :
  e ∈ extract_lab_values text →
  ∃ rule m,
    rule ∈ LAB_PATTERNS ∧ m ∈ finditer (lab_pattern rule) text
    ∧ e = lab_entity text rule m
    ∧ group_shape (group1 m)
    ∧ (PyStr.contains "/" (group1 m) = false →
         ∃ v, py_float (group1 m) = Some v
              ∧ e_numericValue e = Some v ∧ e_unit e = Some (lab_unit rule)).
Proof.
  intros (rule & m & Hr & Hm & ->)%extract_lab_values_elem.
  exists rule, m. do 3 (split; [done|]).
  assert (group_shape (group1 m)) as Hshape.
  { apply finditer_sound in Hm as (a & b & _ & _ & w1 & w2 & w3 & s' & _ & _ & H2 & _ & ->).
    by apply (lab_group_shape rule). }
  split; [done|]. intros Hc.
  assert (is_Some (py_float (group1 m))) as [v Hv].
  { destruct Hshape as [Hd | a b -> Ha Hb | a b Hw _ _].
    - rewrite <- (app_empty_r (group1 m)). apply py_float_numeral; auto.
    - apply py_float_numeral; eauto.
    - by rewrite Hw, compound_contains_slash in Hc. }
  destruct (lab_entity_numeric text rule m)
    as [(_ & v' & Hv' & ? & ?) | ([Hc' | Hn] & _)]; [|congruence..].
  exists v'. auto.
Qed.

(** The heart rate of the scenario: a group of digits, converted. *)
Lemma lab_float_never_fails_witness :
  heart_rate_entity ∈ extract_lab_values scenario_text
  ∧ ∃ rule m,
      rule ∈ LAB_PATTERNS ∧ m ∈ finditer (lab_pattern rule) scenario_text
      ∧ heart_rate_entity = lab_entity scenario_text rule m
      ∧ group_shape (group1 m)
      ∧ (PyStr.contains "/" (group1 m) = false →
           ∃ v, py_float (group1 m) = Some v
                ∧ e_numericValue heart_rate_entity = Some v
                ∧ e_unit heart_rate_entity = Some (lab_unit rule)).
Proof.
  assert (heart_rate_entity ∈ extract_lab_values scenario_text) as H
    by (vm_compute; left).
  split; [exact H|]. exact (lab_float_never_fails scenario_text heart_rate_entity H).
Defined.

(** ** The full pipeline *)

Section PipelineFacts.
Implicit Types (text : string) (ent : Ent) (e : entity) (l : list entity).

Lemma type_map_not_lab label : default other (type_map !! label) ≠ lab.
Proof.
  destruct (type_map !! label) as [t|] eqn:H; [|done]. cbn. intros ->.
  apply elem_of_list_to_map_2 in H.
  repeat (apply elem_of_cons in H as [H | H]; [discriminate H|]).
  by apply elem_of_nil in H.
Qed.

Lemma normalize_not_lab text ent : e_type (normalize text ent) ≠ lab.
Proof. apply type_map_not_lab. Qed.

Lemma entities_have_spans text (ents : list Ent) :
  Forall (λ e, e_spans e ≠ []) (map (normalize text) ents ++ extract_lab_values text).
Proof.
  apply Forall_forall. intros e [H | H]%elem_of_app.
  - apply list_elem_of_In, in_map_iff in H as (ent & <- & _). done.
  - apply extract_lab_values_elem in H as (rule & m & _ & _ & ->).
    by destruct (lab_entity_fields text rule m) as (_ & _ & -> & _).
Qed.

(** The pipeline returns whenever the collaborator does: the lookup of
    the first span never fails. *)
Lemma extract_returns nlp text ents :
  nlp text = Returned ents →
  extract_clinical_entities nlp text
  = Returned (first_occurrences []
                (map (normalize text) ents ++ extract_lab_values text)).
Proof.
  intros H. unfold extract_clinical_entities, merge. rewrite H. cbn [bind].
  rewrite (dedup_loop_first_occurrences _ [] ∅ []); [done | |].
  - apply entities_have_spans.
  - intros k. split; [by intros ?%elem_of_empty | by intros ?%elem_of_nil].
Qed.

Lemma first_occurrences_complete l : ∀ earlier e,
  e ∈ l →
  triple e ∈ triple <$> earlier
  ∨ ∃ x, x ∈ first_occurrences earlier l ∧ triple x = triple e.
Proof.
  induction l as [|y l IH]; intros earlier e; [by intros ?%elem_of_nil|].
  cbn [first_occurrences]. intros [-> | H]%elem_of_cons.
  - case_decide; [by left|]. right. exists y. split; [by left | done].
  - destruct (IH (earlier ++ [y]) e H) as [Hin | (x & Hx & Ht)].
    + rewrite fmap_app, elem_of_app in Hin. destruct Hin as [Hin | Hin]; [by left|].
      apply list_elem_of_singleton in Hin. case_decide.
      * left. by rewrite Hin.
      * right. exists y. split; [by left | done].
    + right. exists x. split; [|done]. apply elem_of_app. by right.
Qed.

(** An entity whose triple no other entity of the list has is kept. *)
Lemma first_occurrences_kept l e :
  e ∈ l → (∀ x, x ∈ l → triple x = triple e → x = e) →
  e ∈ first_occurrences [] l.
Proof.
  intros He Hu. destruct (first_occurrences_complete l [] e He) as [H | (x & Hx & Ht)].
  - by apply elem_of_nil in H.
  - rewrite <- (Hu x); [done | | done].
    eapply elem_of_sublist; [done | apply first_occurrences_sublist].
Qed.

Lemma NoDup_fmap_eq {A B} (f : A → B) (l : list A) x y :
  NoDup (f <$> l) → x ∈ l → y ∈ l → f x = f y → x = y.
Proof.
  induction l as [|a l IH]; [by intros _ ?%elem_of_nil|].
  rewrite fmap_cons, NoDup_cons. intros [Ha Hnd].
  intros [-> | Hx]%elem_of_cons [-> | Hy]%elem_of_cons Hf; [done | | | by apply IH].
  - destruct Ha. rewrite Hf. by apply list_elem_of_fmap_2.
  - destruct Ha. rewrite <- Hf. by apply list_elem_of_fmap_2.
Qed.

(** A normalized span is kept when the spans of the document start at
    different offsets: no lab entity and no other span has its triple. *)
Lemma normalized_kept text (ents : list Ent) ent :
  ent ∈ ents → NoDup (start_char <$> ents) →
  normalize text ent
  ∈ first_occurrences [] (map (normalize text) ents ++ extract_lab_values text).
Proof.
  intros Hin Hnd. apply first_occurrences_kept.
  - apply elem_of_app. left. by apply list_elem_of_In, in_map, list_elem_of_In.
  - intros x [Hx | Hx]%elem_of_app Ht.
    + apply list_elem_of_In, in_map_iff in Hx as (ent' & <- & Hin'%list_elem_of_In).
      f_equal. apply (NoDup_fmap_eq start_char ents); [done..|].
      unfold triple in Ht. cbn in Ht. congruence.
    + apply extract_lab_values_elem in Hx as (rule & m & _ & _ & ->).
      destruct (lab_entity_fields text rule m) as (_ & Hty & _).
      destruct (normalize_not_lab text ent). unfold triple in Ht. congruence.
Qed.

(** A lab entity that no other lab entity shares text and start with is kept. *)
Lemma lab_kept text (ents : list Ent) e :
  e ∈ extract_lab_values text →
  (∀ x, x ∈ extract_lab_values text → triple x = triple e → x = e) →
  e ∈ first_occurrences [] (map (normalize text) ents ++ extract_lab_values text).
Proof.
  intros Hin Hu. apply first_occurrences_kept.
  - apply elem_of_app. by right.
  - intros x [Hx | Hx]%elem_of_app Ht; [|by apply Hu].
    apply list_elem_of_In, in_map_iff in Hx as (ent' & <- & _).
    apply extract_lab_values_elem in Hin as (rule & m & _ & _ & ->).
    destruct (lab_entity_fields text rule m) as (_ & Hty & _).
    destruct (normalize_not_lab text ent'). unfold triple in Ht. congruence.
Qed.
End PipelineFacts.

(** ** Spans *)

(** C6, as the code has it: every span of a lab entity of the output has
    [0 <= start < end <= len(text)], whatever the pipeline returns; every
    span of another entity is a span of the pipeline, so when the
    pipeline's spans are non-empty and lie in the document, every span of
    every entity of the output has these bounds.  The end of a span is
    exclusive and may equal the length of the text. *)
Theorem spans_within_document (nlp : string → outcome (list Ent))
    (text : string) (ents : list Ent) :
  nlp text = Returned ents →
  ∃ out,
    extract_clinical_entities nlp text = Returned out
    ∧ (∀ e sp, e ∈ out → sp ∈ e_spans e → e_type e = lab →
         0 ≤ start sp < end_ sp ∧ end_ sp ≤ PyStr.len text)
    ∧ (∀ e sp, e ∈ out → sp ∈ e_spans e → e_type e ≠ lab →
         ∃ ent, ent ∈ ents ∧ sp = Span (start_char ent) (end_char ent))
    ∧ (Forall (λ ent, 0 ≤ start_char ent < end_char ent
                      ∧ end_char ent ≤ PyStr.len text) ents →
       ∀ e sp, e ∈ out → sp ∈ e_spans e →
         0 ≤ start sp < end_ sp ∧ end_ sp ≤ PyStr.len text).
Proof.
  intros Hnlp. rewrite (extract_returns nlp text ents Hnlp).
  eexists. split; [reflexivity|].
  assert (∀ e sp,
    e ∈ first_occurrences [] (map (normalize text) ents ++ extract_lab_values text) →
    sp ∈ e_spans e →
    (e_type e ≠ lab
     ∧ ∃ ent, ent ∈ ents ∧ sp = Span (start_char ent) (end_char ent))
    ∨ (e_type e = lab
       ∧ 0 ≤ start sp < end_ sp ∧ end_ sp ≤ PyStr.len text)) as Hcases.
  { intros e sp He Hsp.
    eapply elem_of_sublist in He; [|apply first_occurrences_sublist].
    apply elem_of_app in He as [He | He].
    - apply list_elem_of_In, in_map_iff in He as (ent & <- & Hin%list_elem_of_In).
      left. split; [apply normalize_not_lab|].
      cbn in Hsp. apply list_elem_of_singleton in Hsp as ->. by exists ent.
    - apply extract_lab_values_elem in He as (rule & m & Hr & Hm & ->).
      destruct (lab_entity_fields text rule m) as (_ & Hty & Hs & _).
      right. split; [done|].
      rewrite Hs in Hsp. apply list_elem_of_singleton in Hsp as ->. cbn.
      apply finditer_span in Hm as [Hm _]; [|by apply lab_pattern_min_len].
      unfold PyStr.len. lia. }
  split; [|split].
  - intros e sp He Hsp Hty.
    by destruct (Hcases e sp He Hsp) as [[Hn _] | [_ Hb]].
  - intros e sp He Hsp Hty.
    by destruct (Hcases e sp He Hsp) as [[_ Hent] | [Hl _]].
  - intros Hents e sp He Hsp.
    destruct (Hcases e sp He Hsp) as [[_ (ent & Hin & ->)] | [_ Hb]]; [|done].
    cbn. by apply (proj1 (Forall_forall _ _) Hents).
Qed.

(** On ["BP: 120/80"] with a pipeline whose one span runs backwards, the
    span of the blood pressure still lies in the document: it is [0, 10)
    in a text of length 10. *)
Lemma spans_within_document_witness :
  ∃ out,
    extract_clinical_entities backwards_nlp "BP: 120/80" = Returned out
    ∧ ∀ e sp, e ∈ out → sp ∈ e_spans e → e_type e = lab →
        0 ≤ start sp < end_ sp ∧ end_ sp ≤ PyStr.len "BP: 120/80".
Proof.
  destruct (spans_within_document backwards_nlp "BP: 120/80" _ eq_refl)
    as (out & Hout & Hlab & _).
  exists out. split; [exact Hout | exact Hlab].
Defined.

(** C6 as stated fails: the end of the span of ["BP: 120/80"] is the
    length of the text, which is outside [0, len(text)). *)
Lemma span_end_reaches_length :
  ∃ out e sp,
    extract_clinical_entities silent_nlp "BP: 120/80" = Returned out
    ∧ e ∈ out ∧ sp ∈ e_spans e
    ∧ ¬ (0 ≤ end_ sp < PyStr.len "BP: 120/80").
Proof.
  eexists _, _, (Span 0 10). split; [by vm_compute|].
  split; [left|]. split; [left|]. vm_compute. intros [_ H]. discriminate H.
Qed.

(** ** The normalizer *)

(** C7, as the code has it: a span whose negation attribute is present and
    true is [negated]; every other span, whether the attribute is absent
    or present and false, takes the result of the lexical detection; the
    temporality is always that of the lexical detection. *)
Theorem normalize_assertion (text : string) (ent : Ent) :
  (is_negated ent = Some true → e_assertion (normalize text ent) = negated)
  ∧ (is_negated ent ≠ Some true →
       e_assertion (normalize text ent)
       = detect_assertion text (start_char ent) (ent_text ent))
  ∧ e_temporality (normalize text ent) = detect_temporality text (start_char ent).
Proof.
  unfold normalize. cbn. destruct (is_negated ent) as [[]|]; by repeat split.
Qed.

(** C7 as stated fails: in ["No fever"] the span of [fever] carries the
    attribute with the value false, and the lexical detection still makes
    it [negated]. *)
Lemma false_flag_overridden :
  is_negated fever_ent = Some false
  ∧ e_assertion (normalize "No fever" fever_ent) = negated.
Proof. split; [reflexivity | by vm_compute]. Qed.

(** ** The scenario *)

(** C3, as the code has it: when the pipeline reports the two problems of
    the scenario, among spans that start at different offsets, the output
    holds a [negated] problem [chest pain], the lab entity [HR: 110] with
    code 8867-4, value 110, unit [/min] and assertion [negated] (the cue
    [denies] lies in its window), and a [historical] problem [COPD]; no
    lab entity of the output is [affirmed]. *)
Theorem scenario_entities (nlp : string → outcome (list Ent))
    (ents : list Ent) (f1 f2 : option bool) :
  nlp scenario_text = Returned ents →
  chest_pain_ent f1 ∈ ents → copd_ent f2 ∈ ents →
  NoDup (start_char <$> ents) →
  ∃ out,
    extract_clinical_entities nlp scenario_text = Returned out
    ∧ (∃ e, e ∈ out ∧ e_text e = "chest pain" ∧ e_type e = problem
            ∧ e_assertion e = negated)
    ∧ (∃ e, e ∈ out ∧ e_text e = "HR: 110" ∧ e_type e = lab
            ∧ e_code e = Some "8867-4"
            ∧ e_numericValue e = Some (PyNum false 110)
            ∧ e_unit e = Some "/min" ∧ e_assertion e = negated)
    ∧ (∃ e, e ∈ out ∧ e_text e = "COPD" ∧ e_type e = problem
            ∧ e_temporality e = historical)
    ∧ (∀ e, e ∈ out → e_type e = lab → e_assertion e = negated).
Proof.
  intros Hnlp Hchest Hcopd Hnd. rewrite (extract_returns nlp _ ents Hnlp).
  assert (extract_lab_values scenario_text = [heart_rate_entity]) as Hlabs
    by by vm_compute.
  eexists. split; [reflexivity|]. split; [|split; [|split]].
  - exists (normalize scenario_text (chest_pain_ent f1)).
    split; [by apply normalized_kept|].
    do 2 (split; [by vm_compute|]). by destruct f1 as [[]|]; vm_compute.
  - exists heart_rate_entity. split; [|done]. apply lab_kept.
    + rewrite Hlabs. left.
    + rewrite Hlabs. by intros x ->%list_elem_of_singleton.
  - exists (normalize scenario_text (copd_ent f2)).
    split; [by apply normalized_kept|]. by vm_compute.
  - intros e He Hty.
    eapply elem_of_sublist in He; [|apply first_occurrences_sublist].
    apply elem_of_app in He as [He | He].
    + apply list_elem_of_In, in_map_iff in He as (ent & <- & _).
      by destruct (normalize_not_lab scenario_text ent).
    + rewrite Hlabs in He. by apply list_elem_of_singleton in He as ->.
Qed.

(** The scenario with a pipeline that reports exactly the two problems. *)
Lemma scenario_entities_witness :
  ∃ out,
    extract_clinical_entities scenario_nlp scenario_text = Returned out
    ∧ heart_rate_entity ∈ out.
Proof.
  destruct (scenario_entities scenario_nlp [chest_pain_ent None; copd_ent None]
              None None) as (out & Hout & _ & Hhr & _).
  - reflexivity.
  - left.
  - right. left.
  - apply (bool_decide_unpack _). by vm_compute.
  - exists out. split; [exact Hout|].
    revert Hout. vm_compute. intros Hout. injection Hout as <-.
    right. right. left.
Defined.

(** C3 as stated fails: with that pipeline the output holds no [affirmed]
    lab entity [HR: 110]. *)
Lemma scenario_heart_rate_not_affirmed :
  ¬ ∃ out e,
      extract_clinical_entities scenario_nlp scenario_text = Returned out
      ∧ e ∈ out ∧ e_text e = "HR: 110" ∧ e_type e = lab
      ∧ e_assertion e = affirmed.
Proof.
  intros (out & e & Hout & He & _ & _ & Ha).
  vm_compute in Hout. injection Hout as <-.
  repeat (apply elem_of_cons in He as [-> | He]; [discriminate Ha|]).
  by apply elem_of_nil in He.
Qed.

(** ** The [/analyze] route *)

(** C8: a request object without [text], or with the empty string, gets
    the 400 response with the error body, whatever the pipeline is, even
    one that fails on every call, on which the core itself raises: so the
    core is not run.  A request with a non-empty string, on which the
    pipeline returns, gets the 200 response with the entities of the
    core. *)
Theorem analyze_responses (nlp : string → outcome (list Ent))
    (members : list (string * json)) :
  ((get "text" members = None ∨ get "text" members = Some (JStr "")) →
     analyze nlp (JObj members)
     = Returned (Response 400 (ErrorBody "Missing 'text' field"))
     ∧ analyze failing_nlp (JObj members) = analyze nlp (JObj members)
     ∧ ∀ s, extract_clinical_entities failing_nlp s = Raised "RuntimeError")
  ∧ (∀ s ents,
       get "text" members = Some (JStr s) → s ≠ "" → nlp s = Returned ents →
       ∃ entities,
         extract_clinical_entities nlp s = Returned entities
         ∧ analyze nlp (JObj members)
           = Returned (Response 200 (EntitiesBody entities))).
Proof.
  split.
  - intros H. unfold analyze.
    assert (default (JStr "") (get "text" members) = JStr "") as ->
      by by destruct H as [-> | ->].
    done.
  - intros s ents Hget Hs Hnlp. unfold analyze. rewrite Hget.
    change (default (JStr "") (Some (JStr s))) with (JStr s). cbn [truthy].
    rewrite bool_decide_eq_false_2 by done. cbn [negb].
    rewrite (extract_returns nlp s ents Hnlp). eexists. by split.
Qed.

(** * Further properties *)

(** ** The context windows *)

Section WindowFacts.
Import PyStr.

Lemma substring_skip a w b :
  String.substring (String.length a) (String.length w) (a +:+ w +:+ b) = w.
Proof.
  induction a as [|c a IH]; [apply (substring_app w b)|]. by rewrite app_cons.
Qed.

Lemma clamp_inside n i : 0 ≤ i ≤ n → clamp n i = i.
Proof. intros H. unfold clamp. rewrite (proj2 (Z.ltb_ge i 0)) by lia. lia. Qed.

(** [t[i:j]] is the middle part when [i] and [j] are its two ends. *)
Lemma slice_middle a w b :
  slice (a +:+ w +:+ b) (Z.of_nat (String.length a))
    (Z.of_nat (String.length a + String.length w)) = w.
Proof.
  unfold slice, len. rewrite !length_app'.
  rewrite !clamp_inside by lia.
  replace (Z.to_nat (Z.of_nat (String.length a + String.length w)
                     - Z.of_nat (String.length a))) with (String.length w) by lia.
  rewrite Nat2Z.id. apply substring_skip.
Qed.

(** The window of [width] characters before the end of [a +:+ w], when [w]
    is that long, or shorter with nothing before it. *)
Lemma window_is a w b (width : Z) :
  Z.of_nat (String.length w) ≤ width →
  a = "" ∨ Z.of_nat (String.length w) = width →
  slice (a +:+ w +:+ b) (Z.max 0 (len (a +:+ w) - width)) (len (a +:+ w)) = w.
Proof.
  intros Hle Hcase. unfold len at 1 2. rewrite length_app'.
  replace (Z.max 0 (Z.of_nat (String.length a + String.length w) - width))
    with (Z.of_nat (String.length a)).
  - apply slice_middle.
  - destruct Hcase as [-> | Hw]; cbn [String.length]; lia.
Qed.

Lemma window_whole w (width : Z) :
  Z.of_nat (String.length w) ≤ width →
  slice w (Z.max 0 (len w - width)) (len w) = w.
Proof.
  intros Hle. pose proof (window_is "" w "" width Hle (or_introl eq_refl)) as H.
  change ("" +:+ w +:+ "") with (w +:+ "") in H.
  by rewrite !app_empty_r in H.
Qed.

Lemma slice_empty t (a : Z) : 0 ≤ a → slice t a 0 = "".
Proof.
  intros Ha. unfold slice.
  replace (Z.to_nat (clamp (len t) 0 - clamp (len t) a)) with O.
  - generalize (Z.to_nat (clamp (len t) a)). induction t as [|c t IH]; intros [|n]; cbn; auto.
  - unfold clamp, len. rewrite (proj2 (Z.ltb_ge a 0)) by lia. cbn. lia.
Qed.
End WindowFacts.

(** X1: [detect_assertion] at the end of [a +:+ w] sees the window [w]
    alone when [w] is the 60 characters before the offset, or fewer with
    nothing before them: neither the text before the window nor the text
    from the offset on changes the result. *)
Theorem detect_assertion_window (a w b e : string) :
  (String.length w ≤ 60)%nat →
  a = "" ∨ String.length w = 60%nat →
  detect_assertion (a +:+ w +:+ b) (PyStr.len (a +:+ w)) e
  = detect_assertion w (PyStr.len w) e.
Proof.
  intros Hle Hcase. unfold detect_assertion.
  rewrite window_is, window_whole; [done | lia | lia |].
  destruct Hcase as [-> | ->]; auto.
Qed.

Lemma detect_assertion_window_witness :
  detect_assertion ("Admission note. " +:+ "Patient with known asthma denies any chest pain, cough or ne" +:+ "fever.")
    (PyStr.len ("Admission note. " +:+ "Patient with known asthma denies any chest pain, cough or ne")) "fever"
  = detect_assertion "Patient with known asthma denies any chest pain, cough or ne" (PyStr.len "Patient with known asthma denies any chest pain, cough or ne") "fever".
Proof.
  apply (detect_assertion_window "Admission note. " "Patient with known asthma denies any chest pain, cough or ne" "fever." "fever").
  - vm_compute. lia.
  - right. reflexivity.
Defined.

(** X2: [detect_temporality] at the end of [a +:+ w] sees the window [w]
    alone when [w] is the 80 characters before the offset, or fewer with
    nothing before them. *)
Theorem detect_temporality_window (a w b : string) :
  (String.length w ≤ 80)%nat →
  a = "" ∨ String.length w = 80%nat →
  detect_temporality (a +:+ w +:+ b) (PyStr.len (a +:+ w))
  = detect_temporality w (PyStr.len w).
Proof.
  intros Hle Hcase. unfold detect_temporality.
  rewrite window_is, window_whole; [done | lia | lia |].
  destruct Hcase as [-> | ->]; auto.
Qed.

Lemma detect_temporality_window_witness :
  detect_temporality ("Admission note. " +:+ "Seen in clinic with a history of asthma and hypertension, now presenting with a " +:+ "cough.")
    (PyStr.len ("Admission note. " +:+ "Seen in clinic with a history of asthma and hypertension, now presenting with a "))
  = detect_temporality "Seen in clinic with a history of asthma and hypertension, now presenting with a " (PyStr.len "Seen in clinic with a history of asthma and hypertension, now presenting with a ").
Proof.
  apply (detect_temporality_window "Admission note. " "Seen in clinic with a history of asthma and hypertension, now presenting with a " "cough.").
  - vm_compute. lia.
  - right. reflexivity.
Defined.

(** X3: at offset 0 the window is empty whatever the text: the entity is
    [affirmed] and [current]. *)
Theorem detect_at_document_start (t e : string) :
  detect_assertion t 0 e = affirmed ∧ detect_temporality t 0 = current.
Proof.
  unfold detect_assertion, detect_temporality.
  change (Z.max 0 (0 - 60)) with 0. change (Z.max 0 (0 - 80)) with 0.
  by rewrite slice_empty.
Qed.

(** ** Completeness and order of the matcher *)

Section MatcherOrder.
Implicit Types (r : regex) (s w : string) (pt : pattern) (m : rmatch).

Lemma app_eq_empty w s : "" = w +:+ s → w = "" ∧ s = "".
Proof.
  destruct w; [change ("" +:+ s) with s; by intros <- | by rewrite app_cons].
Qed.

Lemma exec_rep_complete {A} p (k : string → option A) s : ∀ lo hi,
  exec_rep p lo hi s k = None →
  ∀ w s', s = w +:+ s' → lang (Rep p lo hi) w → k s' = None.
Proof.
  induction s as [|c s IH]; intros lo hi H w s' Hs (Hall & Hlo & Hhi).
  - apply app_eq_empty in Hs as [-> ->]. cbn in Hlo, H.
    by destruct lo; [|lia].
  - cbn [exec_rep] in H. destruct w as [|x w].
    + change ("" +:+ s') with s' in Hs. subst s'. cbn in Hlo.
      destruct lo; [|lia].
      destruct (p c && more hi); [|done].
      by destruct (exec_rep p (Nat.pred 0) (Nat.pred <$> hi) s k).
    + rewrite app_cons in Hs. injection Hs as -> ->.
      cbn in Hall, Hlo, Hhi. apply andb_true_iff in Hall as [Hx Hall].
      assert (more hi = true) as Hm by (destruct hi as [[|h]|]; [lia | done..]).
      rewrite Hx, Hm in H. cbn [andb] in H.
      destruct (exec_rep p (Nat.pred lo) (Nat.pred <$> hi) (w +:+ s') k) eqn:Hrec;
        [done|].
      apply (IH _ _ Hrec w s' eq_refl). split; [done|]. split; [lia|].
      destruct hi as [h|]; cbn; [lia | done].
Qed.

(** The matcher tries every word of the expression: when it fails, the
    continuation failed after each of them. *)
Lemma exec_complete {A} r : ∀ (k : string → option A) s,
  exec r s k = None →
  ∀ w s', s = w +:+ s' → lang r w → k s' = None.
Proof.
  induction r as [|p|r1 IH1 r2 IH2|r1 IH1 r2 IH2|p lo hi];
    intros k s H w s' Hs Hw; cbn in H, Hw.
  - by subst.
  - destruct Hw as (c & -> & Hc). subst s. rewrite app_cons in H.
    by rewrite Hc in H.
  - destruct Hw as (w1 & w2 & -> & H1 & H2). rewrite app_assoc' in Hs.
    apply (IH2 k (w2 +:+ s')) with (w := w2); [|done..].
    exact (IH1 (λ s1, exec r2 s1 k) s H w1 (w2 +:+ s') Hs H1).
  - destruct (exec r1 s k) eqn:Hr1; [done|].
    destruct Hw as [Hw | Hw];
      [exact (IH1 k s Hr1 w s' Hs Hw) | exact (IH2 k s H w s' Hs Hw)].
  - by eapply exec_rep_complete.
Qed.

Lemma match_at_complete pt w s' pos :
  word_of pt w → is_Some (match_at pt (w +:+ s') pos).
Proof.
  intros (w1 & w2 & w3 & -> & H1 & H2 & H3).
  destruct (match_at pt ((w1 +:+ w2 +:+ w3) +:+ s') pos) eqn:H; [by eexists|].
  unfold match_at in H. rewrite !app_assoc' in H.
  apply exec_complete with (w := w1) (s' := w2 +:+ w3 +:+ s') in H; [|done..].
  apply exec_complete with (w := w2) (s' := w3 +:+ s') in H; [|done..].
  apply exec_complete with (w := w3) (s' := s') in H; [|done..]. done.
Qed.

Lemma match_at_fields pt s pos m :
  match_at pt s pos = Some m →
  m_start m = pos ∧ m_end m = (pos + String.length (group0 m))%nat
  ∧ ∃ s', s = group0 m +:+ s'.
Proof.
  intros (w1 & w2 & w3 & s' & -> & _ & _ & _ & ->)%match_at_sound. cbn.
  do 2 (split; [done|]). exists s'. by rewrite !app_assoc'.
Qed.

Lemma match_at_nonempty pt s pos m :
  (1 ≤ min_len (pre pt))%nat → match_at pt s pos = Some m →
  m_start m = pos ∧ (pos < m_end m)%nat.
Proof.
  intros Hmin (w1 & w2 & w3 & s' & -> & H1%min_len_le & _ & _ & ->)%match_at_sound.
  cbn. rewrite !length_app'. lia.
Qed.

(** A position where the pattern matches lies in a match of the scan,
    unless the scan is still stepping over an earlier match there. *)
Lemma scan_covers pt a b : ∀ pos skip,
  (1 ≤ min_len (pre pt))%nat →
  is_Some (match_at pt b (pos + String.length a)) →
  (skip ≤ String.length a)%nat →
  ∃ m, m ∈ scan pt (a +:+ b) pos skip
       ∧ (m_start m ≤ pos + String.length a < m_end m)%nat.
Proof.
  induction a as [|c a IH]; intros pos skip Hmin [m Hm] Hskip.
  - cbn in Hskip, Hm. rewrite Nat.add_0_r in Hm. change ("" +:+ b) with b.
    assert (skip = 0%nat) as -> by lia.
    exists m. pose proof (match_at_nonempty _ _ _ _ Hmin Hm) as [Hs He].
    split; [|cbn; lia]. destruct b; cbn [scan]; rewrite Hm; left.
  - rewrite app_cons. cbn [String.length] in *.
    assert (is_Some (match_at pt b (S pos + String.length a))) as Hnext.
    { exists m. rewrite <- Hm. f_equal. lia. }
    assert (∀ n, (n ≤ String.length a)%nat →
      ∃ m', m' ∈ scan pt (a +:+ b) (S pos) n
            ∧ (m_start m' ≤ pos + S (String.length a) < m_end m')%nat) as Hrest.
    { intros n Hn. destruct (IH (S pos) n Hmin Hnext Hn) as (m' & Hin & Hc).
      exists m'. split; [done | lia]. }
    destruct skip as [|n]; cbn [scan].
    + destruct (match_at pt (String c (a +:+ b)) pos) as [m0|] eqn:Hm0.
      * pose proof (match_at_nonempty _ _ _ _ Hmin Hm0) as [Hs He].
        destruct (le_lt_dec (m_end m0) (pos + S (String.length a))) as [Hle | Hgt].
        -- destruct (Hrest (Nat.pred (m_end m0 - pos))) as (m' & Hin & Hc); [lia|].
           exists m'. split; [by right | done].
        -- exists m0. split; [left | lia].
      * apply Hrest. lia.
    + apply Hrest. lia.
Qed.

Lemma scan_start_ge pt m s : ∀ pos skip,
  m ∈ scan pt s pos skip → (pos + skip ≤ m_start m)%nat.
Proof.
  induction s as [|c s IH]; intros pos skip H.
  - destruct skip; cbn in H; [|by apply elem_of_nil in H].
    destruct (match_at pt "" pos) as [m'|] eqn:Hm; [|by apply elem_of_nil in H].
    apply list_elem_of_singleton in H as ->.
    apply match_at_fields in Hm as (-> & _). lia.
  - destruct skip; cbn [scan] in H; [|apply IH in H; lia].
    destruct (match_at pt (String c s) pos) as [m'|] eqn:Hm; [|apply IH in H; lia].
    apply elem_of_cons in H as [-> | H]; [|apply IH in H; lia].
    apply match_at_fields in Hm as (-> & _). lia.
Qed.

(** The matches of a scan come in text order and do not overlap. *)
Lemma scan_sorted pt s : ∀ pos skip,
  StronglySorted (λ m1 m2, (m_start m1 < m_start m2 ∧ m_end m1 ≤ m_start m2)%nat)
    (scan pt s pos skip).
Proof.
  induction s as [|c s IH]; intros pos skip.
  - destruct skip; cbn; [|constructor].
    destruct (match_at pt "" pos); repeat constructor.
  - destruct skip; cbn [scan]; [|apply IH].
    destruct (match_at pt (String c s) pos) as [m|] eqn:Hm; [|apply IH].
    constructor; [apply IH|]. apply list.Forall_forall. intros m2 Hin.
    apply scan_start_ge in Hin. apply match_at_fields in Hm as (Hs & He & _). lia.
Qed.

Lemma finditer_slice pt text m :
  m ∈ finditer pt text →
  PyStr.slice text (Z.of_nat (m_start m)) (Z.of_nat (m_end m)) = group0 m.
Proof.
  intros (a & b & -> & Hm)%scan_sound. cbn in Hm.
  apply match_at_fields in Hm as (-> & -> & s' & ->). apply slice_middle.
Qed.
End MatcherOrder.

(** ** Lab entities *)

Section LabEntityFacts.
Implicit Types (text w : string) (rule : lab_rule) (m : rmatch) (e : entity).

Lemma lab_entity_code text rule m :
  let e := lab_entity text rule m in
  e_code e = Some (loinc_code rule)
  ∧ e_codeSystem e = Some "http://loinc.org"
  ∧ e_codeDisplay e = Some (display rule).
Proof.
  unfold lab_entity.
  by destruct (negb (PyStr.contains "/" (group1 m))), (py_float (group1 m)).
Qed.

Lemma LAB_PATTERNS_codes : NoDup (loinc_code <$> LAB_PATTERNS).
Proof. apply (bool_decide_unpack _). by vm_compute. Qed.

Lemma numeral_tail w :
  numeral w →
  ∃ a tail, w = a +:+ tail ∧ digit_string a
            ∧ (tail = "" ∨ ∃ b, tail = "." +:+ b ∧ digit_string b).
Proof.
  intros [Hd | (a & b & -> & Ha & Hb)].
  - exists w, "". rewrite app_empty_r. auto.
  - exists a, ("." +:+ b). eauto 10.
Qed.

Lemma numeral_plain w : numeral w → all plain w = true.
Proof.
  assert (∀ a, digit_string a → all plain a = true) as Hd.
  { intros a [Ha _]. revert Ha. apply all_impl. intros x Hx. unfold plain. by rewrite Hx. }
  intros [H | (a & b & -> & Ha & Hb)]; [by apply Hd|].
  rewrite all_app. change ("." +:+ b) with (String "." b). cbn [all].
  by rewrite (Hd a), (Hd b).
Qed.

Lemma plain_no_slash w : all plain w = true → PyStr.contains "/" w = false.
Proof.
  induction w as [|c w IH]; [done|]. cbn [all PyStr.contains String.prefix].
  intros [Hc Hw]%andb_true_iff. rewrite (IH Hw).
  destruct (ascii_dec "/" c) as [<- | _]; [done | done].
Qed.

Lemma scale_nonneg (n : N) (ex : Z) : (0 <= scale n ex)%Q.
Proof.
  unfold scale. destruct (ex <? 0).
  - rewrite Qred_correct. unfold Qle. cbn. lia.
  - unfold Qle. cbn. pose proof (Z.pow_nonneg 10 ex). lia.
Qed.

Lemma digit_value_le c : digit c = true → (digit_value c ≤ 9)%N.
Proof.
  intros H%digit_inv.
  repeat (apply elem_of_cons in H as [-> | H]; [by vm_compute|]).
  by apply elem_of_nil in H.
Qed.

(** The digits read after [acc] stay below the next value of [acc]. *)
Lemma digits_run_bound a : ∀ tail acc n,
  all digit a = true →
  match tail with String c _ => digit c = false | EmptyString => True end →
  ∃ v, digits (a +:+ tail) acc n = (v, (n + String.length a)%nat, tail)
       ∧ (v < (acc + 1) * 10 ^ N.of_nat (String.length a))%N.
Proof.
  induction a as [|c a IH]; intros tail acc n Ha Ht.
  - exists acc. rewrite Nat.add_0_r. split; [|cbn; lia].
    destruct tail as [|c tail]; [done|].
    change ("" +:+ String c tail) with (String c tail). cbn. by rewrite Ht.
  - cbn [all] in Ha. apply andb_true_iff in Ha as [Hc Ha]. rewrite app_cons.
    cbn [digits String.length]. rewrite Hc.
    destruct (IH tail (10 * acc + digit_value c)%N (S n) Ha Ht) as (v & Hv & Hb).
    exists v. split; [rewrite Hv; do 2 f_equal; lia|].
    pose proof (digit_value_le c Hc) as Hd.
    rewrite Nat2N.inj_succ, N.pow_succ_r'. nia.
Qed.

Lemma decimal_numeral_bound a tail :
  digit_string a →
  tail = "" ∨ (∃ b, tail = "." +:+ b ∧ digit_string b) →
  ∃ n nf, decimal (a +:+ tail) = Some (n, - Z.of_nat nf)
          ∧ (n < 10 ^ N.of_nat (String.length a + nf))%N.
Proof.
  intros [Ha Hne] Ht. unfold decimal.
  assert (0 < String.length a)%nat as Hlen by (destruct a; [done | cbn; lia]).
  destruct Ht as [-> | (b & -> & Hb & _)].
  - destruct (digits_run_bound a "" 0%N 0%nat Ha I) as (v & -> & Hv).
    exists v, 0%nat. cbn iota beta.
    destruct (0 + String.length a + 0)%nat eqn:E; [lia|].
    split; [done|]. rewrite Nat.add_0_r. lia.
  - destruct (digits_run_bound a ("." +:+ b) 0%N 0%nat Ha) as (v & -> & Hv); [done|].
    change ("." +:+ b) with (String "." b). cbn iota beta.
    destruct (digits_run_bound b "" v 0%nat Hb I) as (n & Hn & Hnb).
    rewrite app_empty_r in Hn. rewrite Hn. cbn iota beta.
    exists n, (0 + String.length b)%nat.
    destruct (0 + String.length a + (0 + String.length b))%nat eqn:E; [lia|].
    split; [done|]. rewrite Nat.add_0_l, Nat2N.inj_add, N.pow_add_r. nia.
Qed.

Lemma scale_lt (n : N) (nf k : nat) :
  (n < 10 ^ N.of_nat (k + nf))%N →
  (scale n (- Z.of_nat nf) < inject_Z (10 ^ Z.of_nat k))%Q.
Proof.
  intros Hn.
  assert (Z.of_N n < 10 ^ Z.of_nat k * 10 ^ Z.of_nat nf) as Hz.
  { rewrite <- Z.pow_add_r by lia. apply N2Z.inj_lt in Hn.
    rewrite N2Z.inj_pow, nat_N_Z in Hn. by rewrite <- Nat2Z.inj_add. }
  unfold scale. destruct (- Z.of_nat nf <? 0) eqn:E.
  - rewrite Qred_correct. unfold Qlt, inject_Z. cbn [Qnum Qden].
    rewrite Z.opp_involutive, Z2Pos.id by (apply Z.pow_pos_nonneg; lia). lia.
  - apply Z.ltb_ge in E. assert (nf = 0%nat) as -> by lia.
    unfold Qlt, inject_Z. cbn [Qnum Qden]. cbn in Hz |- *. lia.
Qed.

Lemma overflow_large : 1000 < overflow.
Proof. by vm_compute. Qed.

(** [float] turns a numeral with at most three digits before the point
    into a finite number between 0 and 1000. *)
Lemma py_float_short a tail :
  digit_string a → (String.length a ≤ 3)%nat →
  tail = "" ∨ (∃ b, tail = "." +:+ b ∧ digit_string b) →
  ∃ q, py_float (a +:+ tail) = Some (PyNum false q)
       ∧ (0 <= q)%Q ∧ (q < 1000)%Q.
Proof.
  intros Ha Hlen Ht.
  assert (numeral (a +:+ tail)) as Hw.
  { destruct Ht as [-> | (b & -> & Hb)]; [left; by rewrite app_empty_r|].
    right. by exists a, b. }
  pose proof (numeral_plain _ Hw) as Hp.
  destruct (decimal_numeral_bound a tail Ha Ht) as (n & nf & Hd & Hn).
  apply scale_lt in Hn.
  assert ((scale n (- Z.of_nat nf) < 1000)%Q) as Hq.
  { eapply Qlt_le_trans; [exact Hn|]. change 1000%Q with (inject_Z 1000).
    rewrite <- Zle_Qle. change 1000 with (10 ^ 3).
    apply Z.pow_le_mono_r; lia. }
  destruct Ha as [Ha Hne]. destruct a as [|c a]; [done|]. clear Hne.
  assert (digit c = true) as Hc by (cbn in Ha; by apply andb_true_iff in Ha as []).
  rewrite app_cons in *. exists (scale n (- Z.of_nat nf)).
  split; [|split; [apply scale_nonneg | done]].
  unfold py_float. rewrite strip_plain by done.
  rewrite drop_underscores_id;
    [|done | revert Hp; apply all_impl, plain_not_underscore].
  cbn [mbind option_bind]. rewrite sign_digit by done.
  rewrite !digit_not_special by first [assumption | repeat constructor].
  cbn [orb]. rewrite Hd. cbn [mbind option_bind]. f_equal.
  unfold finite_or_inf.
  destruct (Qle_bool (inject_Z overflow) (scale n (- Z.of_nat nf))) eqn:E; [|done].
  apply Qle_bool_imp_le in E. exfalso.
  assert ((inject_Z overflow < inject_Z 1000)%Q) as Hlt
    by (eapply Qle_lt_trans; [exact E | exact Hq]).
  rewrite <- Zlt_Qlt in Hlt. pose proof overflow_large. lia.
Qed.

Lemma lang_sep r1 sep r2 w :
  lang (Cat r1 (Cat (lit sep) r2)) w →
  ∃ a b, w = a +:+ sep +:+ b ∧ lang r1 a ∧ lang r2 b.
Proof.
  intros (a & ? & -> & Ha & (? & b & -> & ->%lang_lit & Hb)). by exists a, b.
Qed.

Lemma lang_rep_short lo hi w :
  lo ≠ 0%nat → (hi ≤ 3)%nat → lang (Rep digit lo (Some hi)) w →
  digit_string w ∧ (String.length w ≤ 3)%nat.
Proof.
  intros Hlo Hhi H. split; [by eapply lang_rep_digits|].
  destruct H as (_ & _ & H). lia.
Qed.

(** A captured value that is not a compound has at most three digits
    before its point. *)
Lemma lab_group_short rule w :
  rule ∈ LAB_PATTERNS → lang (grp (lab_pattern rule)) w →
  (∃ a b, w = a +:+ "/" +:+ b)
  ∨ ∃ a tail, w = a +:+ tail ∧ digit_string a ∧ (String.length a ≤ 3)%nat
              ∧ (tail = "" ∨ ∃ b, tail = "." +:+ b ∧ digit_string b).
Proof.
  intros Hin H. unfold LAB_PATTERNS in Hin.
  repeat (apply elem_of_cons in Hin as [-> | Hin]);
    [..|by apply elem_of_nil in Hin]; cbn [grp lab_pattern] in H;
    try (right; exists w, ""; rewrite app_empty_r;
         apply lang_rep_short in H as [? ?]; [by auto | done | lia]).
  - right. apply lang_sep in H as (a & b & -> & Ha & Hb).
    exists a, ("." +:+ b). split; [done|].
    pose proof (lang_chr_digit a Ha) as Hd. destruct Ha as (c & -> & _).
    split; [done|]. split; [cbn; lia|]. right. exists b.
    split; [done|]. by apply lang_rep_digits in Hb.
  - left. apply lang_sep in H as (a & b & -> & _). by exists a, b.
  - right. apply lang_sep in H as (a & b & -> & Ha & Hb).
    exists a, ("." +:+ b). split; [done|].
    apply lang_rep_short in Ha as [Hd Hl]; [|done | lia].
    split; [done|]. split; [done|]. right. exists b.
    split; [done|]. by apply lang_chr_digit.
Qed.

(** Only the blood pressure captures a compound value. *)
Lemma lab_group_kind rule w :
  rule ∈ LAB_PATTERNS → lang (grp (lab_pattern rule)) w →
  (loinc_code rule = "85354-9" ∧ ∃ a b, w = a +:+ "/" +:+ b)
  ∨ (loinc_code rule ≠ "85354-9" ∧ numeral w).
Proof.
  intros Hin H. unfold LAB_PATTERNS in Hin.
  repeat (apply elem_of_cons in Hin as [-> | Hin]);
    [..|by apply elem_of_nil in Hin]; cbn [grp lab_pattern loinc_code] in *;
    try (right; split; [done|]; left; by apply lang_rep_digits in H).
  - right. split; [done|]. right.
    apply lang_digits_sep_digits in H; [done | apply lang_chr_digit |].
    intros ?. by apply lang_rep_digits.
  - left. split; [done|].
    apply lang_digits_sep_digits in H as (a & b & -> & _);
      [by eauto | |]; intros ?; by apply lang_rep_digits.
  - right. split; [done|]. right.
    apply lang_digits_sep_digits in H; [done | | apply lang_chr_digit].
    intros ?. by apply lang_rep_digits.
Qed.

Lemma finditer_group pt text m :
  m ∈ finditer pt text → lang (grp pt) (group1 m).
Proof.
  by intros (a & b & _ & _ & w1 & w2 & w3 & s' & _ & _ & H2 & _ & ->)%finditer_sound.
Qed.

Lemma lit_word s : lang (lit s) s.
Proof.
  induction s as [|c s IH]; [done|]. cbn. exists (String c ""), s.
  split; [done|]. split; [|done]. exists c. split; [done|]. apply Ascii.eqb_refl.
Qed.
End LabEntityFacts.

(** X4: the text of a lab entity is the slice of the document that its
    span delimits. *)
Theorem lab_text_is_slice (text : string) (e : entity) :
  e ∈ extract_lab_values text →
  ∃ sp, e_spans e = [sp] ∧ PyStr.slice text (start sp) (end_ sp) = e_text e.
Proof.
  intros (rule & m & _ & Hm & ->)%extract_lab_values_elem.
  destruct (lab_entity_fields text rule m) as (-> & _ & -> & _).
  eexists. split; [reflexivity|]. by apply finditer_slice in Hm.
Qed.

Lemma lab_text_is_slice_witness :
  ∃ sp, e_spans heart_rate_entity = [sp]
        ∧ PyStr.slice scenario_text (start sp) (end_ sp) = e_text heart_rate_entity.
Proof.
  apply (lab_text_is_slice scenario_text heart_rate_entity).
  vm_compute. left.
Defined.

(** X5: the lab entities of one rule, that is of one LOINC code, come in
    text order and never overlap. *)
Theorem lab_entities_ordered (text : string) :
  StronglySorted (λ e1 e2, e_code e1 = e_code e2 → before e1 e2)
    (extract_lab_values text).
Proof.
  unfold extract_lab_values. pose proof LAB_PATTERNS_codes as Hnd.
  induction LAB_PATTERNS as [|rule rules IH]; [constructor|].
  rewrite fmap_cons in Hnd. apply NoDup_cons in Hnd as [Hfresh Hnd].
  cbn [flat_map]. apply StronglySorted_app_2; [| |by apply IH].
  - intros e1 e2 (m1 & <- & _)%list_elem_of_In%in_map_iff.
    intros (rule2 & Hr2 & (m2 & <- & _)%in_map_iff)%list_elem_of_In%in_flat_map Hc.
    destruct (lab_entity_code text rule m1) as (Hc1 & _).
    destruct (lab_entity_code text rule2 m2) as (Hc2 & _).
    destruct Hfresh. apply list_elem_of_fmap. exists rule2.
    split; [congruence | by apply list_elem_of_In].
  - unfold finditer.
    induction (scan_sorted (lab_pattern rule) text 0 0) as [|m ms _ IHms Hm];
      [constructor|].
    cbn [map]. constructor; [done|]. apply list.Forall_forall.
    intros e2 (m2 & <- & Hin%list_elem_of_In)%list_elem_of_In%in_map_iff _ s1 s2.
    destruct (lab_entity_fields text rule m) as (_ & _ & -> & _).
    destruct (lab_entity_fields text rule m2) as (_ & _ & -> & _).
    intros ->%list_elem_of_singleton ->%list_elem_of_singleton. cbn.
    apply (proj1 (list.Forall_forall _ _) Hm) in Hin. lia.
Qed.

(** X6: a lab value in the document is not missed.  When the text holds a
    word of a rule's pattern at some position, the extraction yields an
    entity of that rule whose span contains that position: the word
    itself is matched there, or a match of the same rule that started
    earlier runs over it. *)
Theorem lab_value_found (rule : lab_rule) (a w b : string) :
  rule ∈ LAB_PATTERNS → word_of (lab_pattern rule) w →
  ∃ e sp,
    e ∈ extract_lab_values (a +:+ w +:+ b)
    ∧ e_code e = Some (loinc_code rule)
    ∧ e_spans e = [sp] ∧ start sp ≤ PyStr.len a < end_ sp.
Proof.
  intros Hr Hw.
  destruct (scan_covers (lab_pattern rule) a (w +:+ b) 0 0) as (m & Hm & Hc).
  { by apply lab_pattern_min_len. }
  { by apply match_at_complete. }
  { lia. }
  exists (lab_entity (a +:+ w +:+ b) rule m). eexists.
  split; [apply extract_lab_values_elem; by exists rule, m|].
  split; [apply lab_entity_code|].
  split; [apply lab_entity_fields|]. cbn. unfold PyStr.len. lia.
Qed.

(** The second heart rate of a text with two of them. *)
Lemma lab_value_found_witness :
  ∃ e sp,
    e ∈ extract_lab_values ("HR: 110, later " +:+ "HR: 120" +:+ ".")
    ∧ e_code e = Some "8867-4"
    ∧ e_spans e = [sp] ∧ start sp ≤ PyStr.len "HR: 110, later " < end_ sp.
Proof.
  apply (lab_value_found heart_rate_rule "HR: 110, later " "HR: 120" ".").
  - do 5 apply list_elem_of_further. apply list_elem_of_here.
  - exists "HR: ", "120", "". split; [reflexivity|]. split; [|split].
    + exists "HR", ": ". split; [reflexivity|]. split; [left; apply lit_word|].
      vm_compute. repeat split. lia.
    + vm_compute. repeat split; lia.
    + reflexivity.
Defined.

(** X7: every lab entity has the type [lab], the LOINC code system, and
    the code and display name of one rule of the table.  An entity of the
    blood pressure rule never has [numericValue] or [unit]; an entity of
    any other rule always has both, the unit being that of the rule. *)
Theorem lab_entity_table (text : string) (e : entity) :
  e ∈ extract_lab_values text →
  e_type e = lab ∧ e_codeSystem e = Some "http://loinc.org"
  ∧ ∃ rule,
      rule ∈ LAB_PATTERNS
      ∧ e_code e = Some (loinc_code rule)
      ∧ e_codeDisplay e = Some (display rule)
      ∧ if bool_decide (loinc_code rule = "85354-9")
        then e_numericValue e = None ∧ e_unit e = None
        else is_Some (e_numericValue e) ∧ e_unit e = Some (lab_unit rule).
Proof.
  intros (rule & m & Hr & Hm & ->)%extract_lab_values_elem.
  destruct (lab_entity_fields text rule m) as (_ & Hty & _).
  destruct (lab_entity_code text rule m) as (Hc & Hs & Hd).
  do 2 (split; [done|]). exists rule. do 3 (split; [done|]).
  apply finditer_group in Hm.
  destruct (lab_group_kind rule _ Hr Hm) as [(Hbp & a & b & Hw) | (Hbp & Hn)].
  - rewrite bool_decide_eq_true_2 by done.
    destruct (lab_entity_numeric text rule m) as [(Hno & _) | (_ & ? & ?)]; [|done].
    by rewrite Hw, compound_contains_slash in Hno.
  - rewrite bool_decide_eq_false_2 by done.
    pose proof (plain_no_slash _ (numeral_plain _ Hn)) as Hno.
    pose proof Hn as (a0 & tail & Hw & Ha0 & Htail)%numeral_tail.
    destruct (py_float_numeral a0 tail Ha0 Htail) as [q Hq]. rewrite <- Hw in Hq.
    destruct (lab_entity_numeric text rule m)
      as [(_ & v & _ & -> & ->) | ([? | ?] & _)]; [by eauto | congruence..].
Qed.

Lemma lab_entity_table_witness :
  e_type heart_rate_entity = lab
  ∧ e_codeSystem heart_rate_entity = Some "http://loinc.org"
  ∧ ∃ rule,
      rule ∈ LAB_PATTERNS
      ∧ e_code heart_rate_entity = Some (loinc_code rule)
      ∧ e_codeDisplay heart_rate_entity = Some (display rule)
      ∧ if bool_decide (loinc_code rule = "85354-9")
        then e_numericValue heart_rate_entity = None ∧ e_unit heart_rate_entity = None
        else is_Some (e_numericValue heart_rate_entity)
             ∧ e_unit heart_rate_entity = Some (lab_unit rule).
Proof.
  apply (lab_entity_table scenario_text heart_rate_entity).
  vm_compute. left.
Defined.

(** X8: the [numericValue] of a lab entity is a finite number [q] with
    [0 <= q < 1000]: never an infinity, a NaN or a negative number, and
    never more than the three digits a pattern lets through. *)
Theorem lab_numeric_value_nonnegative (text : string) (e : entity) (v : pyfloat) :
  e ∈ extract_lab_values text → e_numericValue e = Some v →
  ∃ q, v = PyNum false q ∧ (0 <= q)%Q ∧ (q < 1000)%Q.
Proof.
  intros (rule & m & Hr & Hm & ->)%extract_lab_values_elem Hv.
  apply finditer_group in Hm.
  destruct (lab_entity_numeric text rule m)
    as [(Hno & v' & Hf & Hv' & _) | (_ & Hnone & _)]; [|congruence].
  assert (v' = v) as -> by congruence.
  destruct (lab_group_short rule _ Hr Hm)
    as [(a & b & Hw) | (a & tail & Hw & Ha & Hl & Ht)].
  - by rewrite Hw, compound_contains_slash in Hno.
  - destruct (py_float_short a tail Ha Hl Ht) as (q & Hq & Hpos & Hlt).
    exists q. split; [|done]. rewrite Hw in Hf. congruence.
Qed.

Lemma lab_numeric_value_nonnegative_witness :
  ∃ q, PyNum false 110 = PyNum false q ∧ (0 <= q)%Q ∧ (q < 1000)%Q.
Proof.
  apply (lab_numeric_value_nonnegative scenario_text heart_rate_entity).
  - vm_compute. left.
  - reflexivity.
Defined.

(** ** Where lab entities start *)

Section HeadFacts.
Implicit Types (r : regex) (w : string) (c : ascii).

Lemma elem_of_all_ascii c : c ∈ all_ascii.
Proof.
  unfold all_ascii. apply list_elem_of_fmap. exists (nat_of_ascii c).
  split; [by rewrite ascii_nat_embedding|].
  apply elem_of_seq. pose proof (nat_ascii_bounded c). lia.
Qed.

Lemma lang_void w : ¬ lang void w.
Proof. by intros (c & _ & ?). Qed.

Lemma lang_empty_min_len r : lang r "" → (min_len r =? 0)%nat = true.
Proof. intros H%min_len_le. cbn in H. apply Nat.eqb_eq. lia. Qed.

Lemma app_eq_cons c w w1 w2 :
  String c w = w1 +:+ w2 →
  (w1 = "" ∧ w2 = String c w) ∨ ∃ w1', w1 = String c w1' ∧ w = w1' +:+ w2.
Proof.
  destruct w1 as [|x w1]; [by left|]. rewrite app_cons. intros [= -> ->]. eauto.
Qed.

Lemma firsts_sound r : ∀ c w, lang r (String c w) → c ∈ firsts r.
Proof.
  induction r as [|p|r1 IH1 r2 IH2|r1 IH1 r2 IH2|p lo hi]; intros c w H;
    cbn [lang firsts all String.length] in *.
  - done.
  - destruct H as (x & [= -> _] & Hp). apply list_elem_of_filter.
    split; [done | apply elem_of_all_ascii].
  - destruct H as (w1 & w2 & Hs & H1 & H2). apply elem_of_app.
    apply app_eq_cons in Hs as [[-> ->] | (w1' & -> & _)].
    + right. rewrite (lang_empty_min_len r1 H1). eauto.
    + left. eauto.
  - apply elem_of_app. destruct H; eauto.
  - destruct H as (Hall & _ & Hhi). apply andb_true_iff in Hall as [Hp _].
    assert (more hi = true) as -> by (destruct hi as [[|h]|]; [lia | done..]).
    apply list_elem_of_filter. split; [done | apply elem_of_all_ascii].
Qed.

Lemma deriv_sound r : ∀ c w, lang r (String c w) → lang (deriv c r) w.
Proof.
  induction r as [|p|r1 IH1 r2 IH2|r1 IH1 r2 IH2|p lo hi]; intros c w H;
    cbn [lang deriv all String.length] in *.
  - done.
  - destruct H as (x & [= -> ->] & Hp). by rewrite Hp.
  - destruct H as (w1 & w2 & Hs & H1 & H2).
    apply app_eq_cons in Hs as [[-> ->] | (w1' & -> & ->)].
    + right. rewrite (lang_empty_min_len r1 H1). eauto.
    + left. exists w1', w2. eauto.
  - destruct H; eauto.
  - destruct H as (Hall & Hlo & Hhi). apply andb_true_iff in Hall as [Hp Hall].
    assert (more hi = true) as Hm by (destruct hi as [[|h]|]; [lia | done..]).
    rewrite Hp, Hm. cbn. split; [done|]. split; [lia|].
    destruct hi as [h|]; cbn; [lia | done].
Qed.

Lemma heads_sound r c1 c2 w : lang r (String c1 (String c2 w)) → (c1, c2) ∈ heads r.
Proof.
  intros H. unfold heads. apply list_elem_of_bind. exists c1.
  split; [|by eapply firsts_sound]. apply list_elem_of_bind. exists c2.
  split; [left|]. eapply firsts_sound, deriv_sound, H.
Qed.

(** Each pair of first characters belongs to one rule only. *)
Lemma heads_owned :
  Forall (λ rule,
      (2 ≤ min_len (pre (lab_pattern rule)))%nat
      ∧ Forall (λ h, head_codes h = [loinc_code rule])
          (heads (pre (lab_pattern rule))))
    LAB_PATTERNS.
Proof. apply (bool_decide_unpack _). by vm_compute. Qed.

Lemma app_inj_length a1 : ∀ a2 b1 b2,
  String.length a1 = String.length a2 → a1 +:+ b1 = a2 +:+ b2 → b1 = b2.
Proof.
  induction a1 as [|x a1 IH]; intros [|y a2] b1 b2 Hl H; try done.
  rewrite !app_cons in H. injection H as _ H. cbn in Hl. eauto.
Qed.

(** Two rules that match at one position of a text are the same rule. *)
Lemma same_start_same_rule text rule1 rule2 m1 m2 :
  rule1 ∈ LAB_PATTERNS → rule2 ∈ LAB_PATTERNS →
  m1 ∈ finditer (lab_pattern rule1) text →
  m2 ∈ finditer (lab_pattern rule2) text →
  m_start m1 = m_start m2 → rule1 = rule2.
Proof.
  intros Hr1 Hr2 Hm1 Hm2 Hs.
  assert (∀ rule m, rule ∈ LAB_PATTERNS → m ∈ finditer (lab_pattern rule) text →
    ∃ a c1 c2 rest, text = a +:+ String c1 (String c2 rest)
      ∧ m_start m = String.length a ∧ head_codes (c1, c2) = [loinc_code rule])
    as Hhead.
  { intros rule m Hr (a & b & -> & Hst & w1 & w2 & w3 & s' & -> & H1 & _)%finditer_sound.
    pose proof (proj1 (list.Forall_forall _ _) heads_owned rule Hr) as [Hlen Hown].
    pose proof (min_len_le _ _ H1) as Hw1.
    destruct w1 as [|c1 [|c2 w1]]; [cbn in Hw1; lia..|].
    exists a, c1, c2, (w1 +:+ w2 +:+ w3 +:+ s'). split; [done|]. split; [done|].
    apply (proj1 (list.Forall_forall _ _) Hown). by eapply heads_sound. }
  destruct (Hhead rule1 m1 Hr1 Hm1) as (a1 & c1 & c2 & rest1 & Ht1 & Hs1 & Hc1).
  destruct (Hhead rule2 m2 Hr2 Hm2) as (a2 & d1 & d2 & rest2 & Ht2 & Hs2 & Hc2).
  assert (String c1 (String c2 rest1) = String d1 (String d2 rest2)) as Heq.
  { apply (app_inj_length a1 a2); congruence. }
  injection Heq as -> -> _.
  apply (NoDup_fmap_eq loinc_code LAB_PATTERNS); [apply LAB_PATTERNS_codes | done..|].
  congruence.
Qed.

Lemma fmap_flat_map {A B C} (g : B → C) (h : A → list B) (l : list A) :
  g <$> flat_map h l = l ≫= (λ x, g <$> h x).
Proof.
  induction l as [|x l IH]; [done|]. cbn [flat_map]. by rewrite fmap_app, IH.
Qed.

Lemma sorted_starts_NoDup (ms : list rmatch) :
  StronglySorted (λ m1 m2, (m_start m1 < m_start m2 ∧ m_end m1 ≤ m_start m2)%nat) ms →
  NoDup (m_start <$> ms).
Proof.
  induction 1 as [|m ms _ IH Hm]; [constructor|]. rewrite fmap_cons.
  constructor; [|done]. intros (m2 & Heq & Hin)%list_elem_of_fmap.
  apply (proj1 (list.Forall_forall _ _) Hm) in Hin. lia.
Qed.

Lemma first_start_lab text rule m :
  first_start (lab_entity text rule m) = Some (Z.of_nat (m_start m)).
Proof.
  unfold first_start. by destruct (lab_entity_fields text rule m) as (_ & _ & -> & _).
Qed.

Lemma first_start_map text rule (ms : list rmatch) :
  first_start <$> map (lab_entity text rule) ms
  = (λ n, Some (Z.of_nat n)) <$> (m_start <$> ms).
Proof.
  induction ms as [|m ms IH]; [done|]. cbn [map]. rewrite !fmap_cons.
  by rewrite first_start_lab, IH.
Qed.

Lemma lab_starts_NoDup text : NoDup (first_start <$> extract_lab_values text).
Proof.
  unfold extract_lab_values. rewrite fmap_flat_map. apply NoDup_bind.
  - intros rule1 rule2 y Hr1 Hr2.
    intros (e1 & -> & (m1 & <- & Hm1%list_elem_of_In)%list_elem_of_In%in_map_iff)%list_elem_of_fmap.
    intros (e2 & He & (m2 & <- & Hm2%list_elem_of_In)%list_elem_of_In%in_map_iff)%list_elem_of_fmap.
    rewrite !first_start_lab in He.
    apply (same_start_same_rule text rule1 rule2 m1 m2); [done..|].
    injection He. lia.
  - intros rule _. rewrite first_start_map. apply NoDup_fmap_2.
    + intros n1 n2 [= H]. lia.
    + apply sorted_starts_NoDup, scan_sorted.
  - eapply NoDup_fmap_1, LAB_PATTERNS_codes.
Qed.

(** Entities of different triples that no earlier entity matches are all kept. *)
Lemma first_occurrences_all (l : list entity) : ∀ earlier,
  NoDup (triple <$> l) →
  (∀ e, e ∈ l → triple e ∉ triple <$> earlier) →
  first_occurrences earlier l = l.
Proof.
  induction l as [|e l IH]; intros earlier Hnd Hfresh; [done|].
  rewrite fmap_cons in Hnd. apply NoDup_cons in Hnd as [He Hnd].
  cbn [first_occurrences]. rewrite decide_False by (apply Hfresh; left).
  cbn [app]. f_equal. apply IH; [done|]. intros x Hx.
  rewrite fmap_app, elem_of_app. intros [Hin | Hin%list_elem_of_singleton].
  - by apply (Hfresh x); [right|].
  - apply He. rewrite <- Hin. by apply list_elem_of_fmap_2.
Qed.

Lemma triple_start (l : list entity) : first_start <$> l = snd <$> (triple <$> l).
Proof. by rewrite <- list_fmap_compose. Qed.
End HeadFacts.

(** X9: no two lab entities start at the same offset, whatever their
    rules: two positions of the list of lab entities with one start are
    one position. *)
Theorem lab_starts_distinct (text : string) (i j : nat) (e1 e2 : entity) :
  extract_lab_values text !! i = Some e1 →
  extract_lab_values text !! j = Some e2 →
  first_start e1 = first_start e2 → i = j.
Proof.
  intros H1 H2 Hs.
  apply (proj1 (NoDup_alt _) (lab_starts_NoDup text) i j (first_start e1)).
  - by rewrite list_lookup_fmap, H1.
  - by rewrite list_lookup_fmap, H2, Hs.
Qed.

Lemma lab_starts_distinct_witness :
  extract_lab_values scenario_text !! 0%nat = Some heart_rate_entity
  ∧ 0%nat = 0%nat.
Proof.
  assert (extract_lab_values scenario_text !! 0%nat = Some heart_rate_entity) as H
    by by vm_compute.
  split; [exact H|].
  exact (lab_starts_distinct scenario_text 0 0 heart_rate_entity heart_rate_entity
           H H eq_refl).
Defined.

(** X10: the de-duplication never removes a lab entity.  The output is the
    de-duplicated NLP entities followed by every lab entity, in the order
    of the extraction. *)
Theorem lab_entities_survive (nlp : string → outcome (list Ent))
    (text : string) (ents : list Ent) :
  nlp text = Returned ents →
  extract_clinical_entities nlp text
  = Returned (first_occurrences [] (map (normalize text) ents)
              ++ extract_lab_values text).
Proof.
  intros Hnlp. rewrite (extract_returns nlp text ents Hnlp).
  rewrite first_occurrences_app. do 2 f_equal. apply first_occurrences_all.
  - eapply NoDup_fmap_1. rewrite <- triple_start. apply lab_starts_NoDup.
  - intros e (rule & m & _ & _ & ->)%extract_lab_values_elem.
    intros (x & Ht & (ent & <- & _)%list_elem_of_In%in_map_iff)%list_elem_of_fmap.
    destruct (lab_entity_fields text rule m) as (_ & Hty & _).
    destruct (normalize_not_lab text ent). unfold triple in Ht. congruence.
Qed.

Lemma lab_entities_survive_witness :
  extract_clinical_entities scenario_nlp scenario_text
  = Returned (first_occurrences []
                (map (normalize scenario_text) [chest_pain_ent None; copd_ent None])
              ++ extract_lab_values scenario_text).
Proof.
  apply (lab_entities_survive scenario_nlp scenario_text). reflexivity.
Defined.

(** ** More on the merge *)

Section MergeOutcome.
Implicit Types (e : entity) (l : list entity) (seen : gset key).

(** The loop raises [IndexError] at the first entity without a span, and
    returns when there is none. *)
Lemma dedup_loop_outcome l : ∀ seen deduped,
  (Exists (λ e, e_spans e = []) l
   ∧ dedup_loop l seen deduped = Raised "IndexError")
  ∨ (Forall (λ e, e_spans e ≠ []) l
     ∧ ∃ out, dedup_loop l seen deduped = Returned out).
Proof.
  induction l as [|e l IH]; intros seen deduped.
  { right. split; [constructor | by eexists]. }
  cbn [dedup_loop]. destruct (e_spans e) as [|sp sps] eqn:He.
  - assert (entity_key e = Raised "IndexError") as ->
      by (unfold entity_key; by rewrite He).
    left. split; [by apply Exists_cons_hd | done].
  - assert (entity_key e
            = Returned (PyStr.lower (e_text e), e_type e, start sp)) as ->
      by (unfold entity_key; by rewrite He).
    cbn [bind].
    assert (∀ seen' deduped',
      (Exists (λ e, e_spans e = []) (e :: l)
       ∧ dedup_loop l seen' deduped' = Raised "IndexError")
      ∨ (Forall (λ e, e_spans e ≠ []) (e :: l)
         ∧ ∃ out, dedup_loop l seen' deduped' = Returned out)) as Hrec.
    { intros seen' deduped'. destruct (IH seen' deduped') as [[Hex Hr] | [Hall Hr]].
      - left. split; [by apply Exists_cons_tl | done].
      - right. split; [|done]. apply Forall_cons. split; [|done]. by rewrite He. }
    case_decide; apply Hrec.
Qed.

Lemma merge_returned_spans l1 l2 out :
  merge l1 l2 = Returned out →
  Forall (λ e, e_spans e ≠ []) (l1 ++ l2)
  ∧ out = first_occurrences [] (l1 ++ l2).
Proof.
  unfold merge. intros H.
  destruct (dedup_loop_outcome (l1 ++ l2) ∅ []) as [[_ Hr] | [Hall _]]; [congruence|].
  split; [done|].
  rewrite (dedup_loop_first_occurrences _ [] ∅ []) in H;
    [by injection H as <- | done |].
  intros k. split; [by intros ?%elem_of_empty | by intros ?%elem_of_nil].
Qed.
End MergeOutcome.

(** X11: the merge raises [IndexError] exactly when one of the entities it
    is given has no span. *)
Theorem merge_raises_without_span (nlp_entities lab_entities : list entity) :
  merge nlp_entities lab_entities = Raised "IndexError"
  ↔ Exists (λ e, e_spans e = []) (nlp_entities ++ lab_entities).
Proof.
  unfold merge.
  destruct (dedup_loop_outcome (nlp_entities ++ lab_entities) ∅ [])
    as [[Hex ->] | [Hall [out ->]]]; [done|].
  split; [done|]. intros Hex. apply Exists_exists in Hex as (e & Hin & He).
  by destruct (proj1 (list.Forall_forall _ _) Hall e Hin).
Qed.

(** X12: the merge is idempotent: merging its result again, with nothing
    added, returns the same list. *)
Theorem merge_idempotent (nlp_entities lab_entities out : list entity) :
  merge nlp_entities lab_entities = Returned out →
  merge out [] = Returned out.
Proof.
  intros [Hs ->]%merge_returned_spans. unfold merge. rewrite app_nil_r.
  rewrite (dedup_loop_first_occurrences _ [] ∅ []).
  - f_equal. apply first_occurrences_all; [apply first_occurrences_NoDup|].
    intros e _. apply not_elem_of_nil.
  - apply list.Forall_forall. intros e He.
    apply (proj1 (list.Forall_forall _ _) Hs).
    eapply elem_of_sublist; [done | apply first_occurrences_sublist].
  - intros k. split; [by intros ?%elem_of_empty | by intros ?%elem_of_nil].
Qed.

Lemma merge_idempotent_witness :
  ∃ out,
    merge sample_nlp_entities sample_lab_entities = Returned out
    ∧ merge out [] = Returned out.
Proof.
  eexists. split; [by vm_compute|].
  apply (merge_idempotent sample_nlp_entities sample_lab_entities). by vm_compute.
Defined.

(** X13: the merge loses no triple: every entity it is given has in the
    result an entity of the same lower-cased text, type and start. *)
Theorem merge_keeps_every_triple (nlp_entities lab_entities out : list entity)
    (e : entity) :
  merge nlp_entities lab_entities = Returned out →
  e ∈ nlp_entities ++ lab_entities →
  ∃ x, x ∈ out ∧ triple x = triple e.
Proof.
  intros [_ ->]%merge_returned_spans He.
  destruct (first_occurrences_complete _ [] e He) as [H | H]; [|done].
  by apply elem_of_nil in H.
Qed.

Lemma merge_keeps_every_triple_witness :
  ∃ x,
    x ∈ first_occurrences [] (sample_nlp_entities ++ sample_lab_entities)
    ∧ triple x
      = triple (normalize "fever, FEVER"
                  {| ent_text := "FEVER"; label_ := "PROBLEM";
                     start_char := 0; end_char := 5; is_negated := Some true |}).
Proof.
  apply (merge_keeps_every_triple sample_nlp_entities sample_lab_entities).
  - by vm_compute.
  - vm_compute. right. left.
Defined.

(** ** Codes and shapes of the output *)

Section OutputFacts.
Implicit Types (text : string) (ent : Ent) (e : entity).

Lemma CODE_MAP_system k ci : CODE_MAP !! k = Some ci → ci_system ci = icd10.
Proof.
  intros H. apply elem_of_list_to_map_2 in H.
  repeat (apply elem_of_cons in H as [H | H]; [by injection H as _ ->|]).
  by apply elem_of_nil in H.
Qed.
End OutputFacts.

(** X14: for a span of the pipeline, [code] and [codeSystem] are both
    present or both absent; when present the system is ICD-10-CM; the
    lookup ignores case, so two spans whose texts differ in case only get
    the same code.  Such an entity never has the type [lab], a display
    name, a numeric value or a unit, and has exactly one span. *)
Theorem normalize_code (text : string) (ent : Ent) :
  let e := normalize text ent in
  (is_Some (e_code e) ↔ is_Some (e_codeSystem e))
  ∧ (is_Some (e_code e) → e_codeSystem e = Some icd10)
  ∧ (∀ text' ent',
       PyStr.lower (ent_text ent') = PyStr.lower (ent_text ent) →
       e_code (normalize text' ent') = e_code e)
  ∧ e_type e ≠ lab ∧ e_codeDisplay e = None
  ∧ e_numericValue e = None ∧ e_unit e = None
  ∧ e_spans e = [Span (start_char ent) (end_char ent)].
Proof.
  cbn zeta. split; [|split; [|split]].
  - unfold normalize. cbn [e_code e_codeSystem]. by rewrite !fmap_is_Some.
  - unfold normalize. cbn [e_code e_codeSystem].
    destruct (CODE_MAP !! PyStr.lower (ent_text ent)) as [ci|] eqn:H.
    + intros _. change (Some (ci_system ci) = Some icd10).
      by rewrite (CODE_MAP_system _ _ H).
    + by intros [x Hx].
  - intros text' ent' Hl. unfold normalize. cbn [e_code]. by rewrite Hl.
  - split; [apply normalize_not_lab | by repeat split].
Qed.

(** X15: in the output of the pipeline every entity has exactly one span;
    an entity has the type [lab] exactly when its code system is LOINC,
    and then it has a code and a display name; an entity of another type
    has no display name, numeric value or unit, and its code system, when
    present, is ICD-10-CM. *)
Theorem output_entity_shapes (nlp : string → outcome (list Ent))
    (text : string) (out : list entity) (e : entity) :
  extract_clinical_entities nlp text = Returned out → e ∈ out →
  (∃ sp, e_spans e = [sp])
  ∧ (e_type e = lab ↔ e_codeSystem e = Some "http://loinc.org")
  ∧ (e_type e = lab → is_Some (e_code e) ∧ is_Some (e_codeDisplay e))
  ∧ (e_type e ≠ lab →
       e_codeDisplay e = None ∧ e_numericValue e = None ∧ e_unit e = None
       ∧ (e_codeSystem e = None ∨ e_codeSystem e = Some icd10)).
Proof.
  intros Hout He.
  destruct (nlp text) as [ents|exc] eqn:Hnlp;
    [|unfold extract_clinical_entities in Hout; by rewrite Hnlp in Hout].
  rewrite (extract_returns nlp text ents Hnlp) in Hout. injection Hout as <-.
  eapply elem_of_sublist in He; [|apply first_occurrences_sublist].
  apply elem_of_app in He as [He | He].
  - apply list_elem_of_In, in_map_iff in He as (ent & <- & _).
    pose proof (normalize_not_lab text ent) as Hty.
    split; [by eexists|]. split; [|split; [done|]].
    + split; [done|]. unfold normalize. cbn [e_codeSystem].
      destruct (CODE_MAP !! PyStr.lower (ent_text ent)) as [ci|] eqn:H; [|done].
      change (Some (ci_system ci) = Some "http://loinc.org" → e_type (normalize text ent) = lab).
      rewrite (CODE_MAP_system _ _ H). discriminate.
    + intros _. do 3 (split; [done|]). unfold normalize. cbn [e_codeSystem].
      destruct (CODE_MAP !! PyStr.lower (ent_text ent)) as [ci|] eqn:H; [|by left].
      right. change (Some (ci_system ci) = Some icd10).
      by rewrite (CODE_MAP_system _ _ H).
  - apply extract_lab_values_elem in He as (rule & m & _ & _ & ->).
    destruct (lab_entity_fields text rule m) as (_ & Hty & Hsp & _).
    destruct (lab_entity_code text rule m) as (Hc & Hs & Hd).
    split; [by eexists|]. split; [done|]. split; [|done].
    intros _. rewrite Hc, Hd. by eauto.
Qed.

Lemma output_entity_shapes_witness :
  (∃ sp, e_spans heart_rate_entity = [sp])
  ∧ (e_type heart_rate_entity = lab
     ↔ e_codeSystem heart_rate_entity = Some "http://loinc.org")
  ∧ (e_type heart_rate_entity = lab →
       is_Some (e_code heart_rate_entity)
       ∧ is_Some (e_codeDisplay heart_rate_entity))
  ∧ (e_type heart_rate_entity ≠ lab →
       e_codeDisplay heart_rate_entity = None
       ∧ e_numericValue heart_rate_entity = None
       ∧ e_unit heart_rate_entity = None
       ∧ (e_codeSystem heart_rate_entity = None
          ∨ e_codeSystem heart_rate_entity = Some icd10)).
Proof.
  eapply (output_entity_shapes scenario_nlp scenario_text).
  - by vm_compute.
  - right. right. left.
Defined.

(** ** More on the [/analyze] route *)

(** X16: every value of [text] that Python counts as false gets the 400
    response, not only the empty string: [null], [false], zero, an empty
    array and an empty object too; the pipeline is not run. *)
Theorem analyze_falsy_text (nlp : string → outcome (list Ent))
    (members : list (string * json)) (v : json) :
  get "text" members = Some v → truthy v = false →
  analyze nlp (JObj members)
  = Returned (Response 400 (ErrorBody "Missing 'text' field")).
Proof.
  intros Hget Hv. unfold analyze. rewrite Hget.
  change (default (JStr "") (Some v)) with v. by rewrite Hv.
Qed.

Lemma analyze_falsy_text_witness :
  analyze failing_nlp (JObj [("text", JNull)])
  = Returned (Response 400 (ErrorBody "Missing 'text' field")).
Proof.
  apply (analyze_falsy_text failing_nlp [("text", JNull)] JNull); reflexivity.
Defined.

(** X17: a normal return of the handler is one of two responses: the 400
    error, for a [text] that is missing or counts as false, or the 200
    response with the entities of the core on a non-empty string.  In
    every other case it raises: when the body is not an object, when
    [text] is a true value that is not a string, and when the pipeline
    raises, whose exception comes through unchanged. *)
Theorem analyze_outcomes (nlp : string → outcome (list Ent)) (request_json : json) :
  (∀ r, analyze nlp request_json = Returned r →
     ∃ members, request_json = JObj members
       ∧ ((r = Response 400 (ErrorBody "Missing 'text' field")
           ∧ truthy (default (JStr "") (get "text" members)) = false)
          ∨ ∃ s entities,
              get "text" members = Some (JStr s) ∧ s ≠ ""
              ∧ extract_clinical_entities nlp s = Returned entities
              ∧ r = Response 200 (EntitiesBody entities)))
  ∧ ((∀ members, request_json ≠ JObj members) →
       analyze nlp request_json = Raised "AttributeError")
  ∧ (∀ members s exc,
       request_json = JObj members → get "text" members = Some (JStr s) →
       s ≠ "" → nlp s = Raised exc →
       analyze nlp request_json = Raised exc).
Proof.
  split; [|split].
  - intros r H. destruct request_json as [| | | | |members]; try done.
    exists members. split; [done|]. unfold analyze in H.
    destruct (truthy (default (JStr "") (get "text" members))) eqn:Ht; cbn [negb] in H.
    + right. destruct (get "text" members) as [v|] eqn:Hget; [|done].
      change (default (JStr "") (Some v)) with v in *.
      destruct v as [| | |s| |]; try done.
      destruct (extract_clinical_entities nlp s) as [entities|] eqn:He; [|done].
      injection H as <-. exists s, entities. split; [done|]. split; [|done].
      intros ->. done.
    + left. by injection H as <-.
  - intros H. destruct request_json as [| | | | |members]; try done.
    by destruct (H members).
  - intros members s exc -> Hget Hs Hnlp. unfold analyze. rewrite Hget.
    change (default (JStr "") (Some (JStr s))) with (JStr s). cbn [truthy].
    rewrite bool_decide_eq_false_2 by done. cbn [negb].
    unfold extract_clinical_entities. by rewrite Hnlp.
Qed.

(** ** Digits *)

Section DigitFacts.
Import PyStr.

(** A digit string holds a digit. *)
Lemma digit_string_head w : digit_string w → ∃ c rest, w = String c rest ∧ digit c = true.
Proof.
  intros [Hall Hne]. destruct w as [|c rest]; [done|]. cbn in Hall.
  apply andb_true_iff in Hall as [Hc _]. eauto.
Qed.

Lemma group_shape_digit w :
  group_shape w → ∃ a c b, w = a +:+ String c b ∧ digit c = true.
Proof.
  intros [H | a b -> H _ | a b -> H _];
    apply digit_string_head in H as (c & rest & -> & Hc).
  - by exists "", c, rest.
  - exists "", c, (rest +:+ "." +:+ b). by rewrite app_cons.
  - exists "", c, (rest +:+ "/" +:+ b). by rewrite app_cons.
Qed.
End DigitFacts.

(** X19: a text without a digit yields no lab entity: every pattern
    captures at least one digit. *)
Theorem no_digit_no_lab_entity (text : string) :
  all (λ c, negb (digit c)) text = true → extract_lab_values text = [].
Proof.
  intros Hnd. apply elem_of_nil_inv. intros e He.
  apply extract_lab_values_elem in He as (rule & m & Hr & Hm & _).
  apply finditer_sound in Hm
    as (a & b & -> & _ & w1 & w2 & w3 & s' & -> & _ & H2 & _).
  apply (lab_group_shape rule), group_shape_digit in H2 as (x & c & y & -> & Hc);
    [|done].
  rewrite !all_app in Hnd. cbn [all] in Hnd. rewrite Hc in Hnd. cbn in Hnd.
  by rewrite !andb_false_r, ?andb_false_l in Hnd.
Qed.

Lemma no_digit_no_lab_entity_witness :
  extract_lab_values "Patient denies chest pain. History of COPD." = [].
Proof.
  apply (no_digit_no_lab_entity "Patient denies chest pain. History of COPD.").
  by vm_compute.
Defined.
